(** * get_links.py: a shallow embedding of the Linktree scraper

    The script fetches one page, reads the JSON page model embedded in it,
    keeps the entries that carry a [url] key and, for each of them,
    optionally downloads a thumbnail and writes a small markdown
    descriptor.  This file embeds the script function by function and
    proves the properties its specification states.

    Conventions.
    - A Python [str] is a Rocq [string] holding the UTF-8 encoding of the
      text.  Every string operation of the script other than [str.lower]
      looks at ASCII characters only (the classes [a-zA-Z0-9] and [-], the
      separator [/], the dictionary keys), and UTF-8 never uses a byte
      below 128 inside a multi-byte character, so these operations act on
      the encoding exactly as they act on the code points.
      Text without a UTF-8 encoding (a lone surrogate) is not covered.
    - Python values are the values [json.loads] produces.
    - Exceptions are values of [exn]; a computation is a function from the
      world (files, standard output, requests issued) to an outcome and a
      new world.  Files are written as on POSIX: a newline stays one
      character.
    - What the script takes from the interpreter and its libraries
      ([str.lower], [requests.get], BeautifulSoup, [json.loads], [open])
      is a field of [runtime]. *)

From Stdlib Require Import ZArith Ascii String List Bool Lia.
From Stdlib Require Import Numbers.DecimalString Numbers.DecimalZ.
From stdpp Require Import base option list strings gmap.

Local Open Scope string_scope.
Local Open Scope Z_scope.

(** ** Characters and strings *)

Module Str.

Definition code (c : ascii) : N := N_of_ascii c.

Definition in_range (lo hi : N) (c : ascii) : bool :=
  (lo <=? code c)%N && (code c <=? hi)%N.

Definition is_lower (c : ascii) : bool := in_range 97 122 c.
Definition is_upper (c : ascii) : bool := in_range 65 90 c.
Definition is_digit (c : ascii) : bool := in_range 48 57 c.
Definition is_hyphen (c : ascii) : bool := Ascii.eqb c "-".

(** The complement of the class [[^a-zA-Z0-9]]. *)
Definition is_alnum (c : ascii) : bool :=
  is_lower c || is_upper c || is_digit c.

(** The characters a slug may hold. *)
Definition is_slug_char (c : ascii) : bool :=
  is_lower c || is_digit c || is_hyphen c.

Fixpoint all (p : ascii -> bool) (s : string) : bool :=
  match s with
  | EmptyString => true
  | String c r => p c && all p r
  end.

Fixpoint drop_while (p : ascii -> bool) (s : string) : string :=
  match s with
  | EmptyString => EmptyString
  | String c r => if p c then drop_while p r else s
  end.

Definition first (s : string) : option ascii :=
  match s with
  | EmptyString => None
  | String c _ => Some c
  end.

Fixpoint final (s : string) : option ascii :=
  match s with
  | EmptyString => None
  | String c EmptyString => Some c
  | String _ r => final r
  end.

(** [needle in hay] for two strings. *)
Fixpoint contains (needle hay : string) : bool :=
  String.prefix needle hay ||
  match hay with
  | EmptyString => false
  | String _ r => contains needle r
  end.

(** [s.split(sep)] for a one-character separator: never empty. *)
Fixpoint split (sep : ascii) (s : string) : list string :=
  match s with
  | EmptyString => [EmptyString]
  | String c r =>
      if Ascii.eqb c sep then EmptyString :: split sep r
      else match split sep r with
           | [] => [String c EmptyString]
           | w :: ws => String c w :: ws
           end
  end.

(** [xs[-1]]; the default is returned for the empty list only, where
    Python raises [IndexError]. *)
Definition last_item (xs : list string) : string := List.last xs EmptyString.

(** A continuation byte of a multi-byte UTF-8 character. *)
Definition is_continuation (c : ascii) : bool := in_range 128 191 c.

(** The characters of a string, each as a string of its own: what
    iterating over a [str] yields. *)
Fixpoint chars (s : string) : list string :=
  match s with
  | EmptyString => []
  | String b r =>
      match chars r with
      | String c w :: rest =>
          if is_continuation c then String b (String c w) :: rest
          else String b EmptyString :: String c w :: rest
      | _ => [String b EmptyString]
      end
  end.

(** The newline character, as a string. *)
Definition nl : string := String "010" EmptyString.

(** [str(n)] for an integer. *)
Definition of_Z (n : Z) : string := NilEmpty.string_of_int (Z.to_int n).

(** [int(s)] for a decimal numeral. *)
Definition to_Z (s : string) : option Z := Z.of_int <$> NilEmpty.int_of_string s.

End Str.

(** ** Regular-expression substitutions of [stub_title] *)

Module Re.
Import Str.

(** [re.sub(r"[^a-zA-Z0-9]+", "-", s)].  The scan goes left to right;
    [in_run] says that the previous character was part of a match, so
    that a maximal run of characters outside the class yields one
    hyphen. *)
Fixpoint sub_runs (in_run : bool) (s : string) : string :=
  match s with
  | EmptyString => EmptyString
  | String c r =>
      if is_alnum c then String c (sub_runs false r)
      else if in_run then sub_runs true r
      else String "-" (sub_runs true r)
  end.

Definition sub_non_alnum (s : string) : string := sub_runs false s.

(** Where [$] matches: at the end of the string and just before a
    newline that ends the string. *)
Definition at_dollar (s : string) : bool :=
  match s with
  | EmptyString => true
  | String c EmptyString => Ascii.eqb c "010"
  | _ => false
  end.

(** The alternative [-+$], tried at every position after the first
    alternative: a run of hyphens that reaches [$] is removed, what
    follows it (nothing, or the final newline) is kept. *)
Fixpoint sub_trailing (s : string) : string :=
  match s with
  | EmptyString => EmptyString
  | String c r =>
      if is_hyphen c && at_dollar (drop_while is_hyphen r)
      then drop_while is_hyphen r
      else String c (sub_trailing r)
  end.

(** [re.sub(r"^-+|-+$", "", s)]: [^-+] can only match at position 0 and
    takes the whole leading run; the scan goes on behind it. *)
Definition sub_edge_hyphens (s : string) : string :=
  sub_trailing (drop_while is_hyphen s).

End Re.

(** ** Python values *)

#[local] Set Warnings "-register-all".

(** What [json.loads] returns.  A [dict] keeps its keys in insertion
    order, so it is an association list; [json.loads] never builds one
    with a repeated key.  A [float] is held by its [repr], which
    determines it. *)
Inductive value : Type :=
| VNone
| VBool (b : bool)
| VInt (n : Z)
| VFloat (repr : string)
| VStr (s : string)
| VList (xs : list value)
| VDict (kvs : list (string * value)).

Inductive pytype : Type :=
| TNone | TBool | TInt | TFloat | TStr | TList | TDict.

Definition type_of (v : value) : pytype :=
  match v with
  | VNone => TNone
  | VBool _ => TBool
  | VInt _ => TInt
  | VFloat _ => TFloat
  | VStr _ => TStr
  | VList _ => TList
  | VDict _ => TDict
  end.

Definition is_dict (v : value) : bool :=
  match v with VDict _ => true | _ => false end.

(** [d.get(key)] on the association list: the first binding of [key]. *)
Fixpoint dict_get {V : Type} (key : string) (kvs : list (string * V)) : option V :=
  match kvs with
  | [] => None
  | (k, v) :: r => if String.eqb k key then Some v else dict_get key r
  end.

Definition dict_has {V : Type} (key : string) (kvs : list (string * V)) : bool :=
  match dict_get key kvs with Some _ => true | None => false end.

(** ** Exceptions and outcomes *)

(** How a request can fail: every case is a subclass of
    [requests.exceptions.RequestException]. *)
Inductive request_failure : Type :=
| ConnectionFailed
| TimedOut
| OtherRequestFailure.

(** A [TypeError] and an [AttributeError] name the type of the offending
    object in their message; a [KeyError] carries the missing key. *)
Inductive exn : Type :=
| KeyError (key : string)
| TypeError (found : pytype)
| AttributeError (found : pytype) (attr : string)
| IndexError
| ValueError (msg : string)
| JSONDecodeError
| RequestException (kind : request_failure)
| OSError (path : string).

Inductive outcome (A : Type) : Type :=
| Ok (a : A)
| Raise (e : exn).

Arguments Ok {A} a.
Arguments Raise {A} e.

#[global] Instance outcome_ret : MRet outcome := fun A a => Ok a.

#[global] Instance outcome_bind : MBind outcome := fun A B f m =>
  match m with
  | Ok a => f a
  | Raise e => Raise e
  end.

(** ** Operators on values *)

(** [bool(v)]. *)
Definition truthy (v : value) : bool :=
  match v with
  | VNone => false
  | VBool b => b
  | VInt n => negb (n =? 0)
  | VFloat r => negb (String.eqb r "0.0" || String.eqb r "-0.0")
  | VStr s => negb (String.eqb s "")
  | VList xs => match xs with [] => false | _ => true end
  | VDict kvs => match kvs with [] => false | _ => true end
  end.

(** [v[key]] for a string key. *)
Definition subscript (v : value) (key : string) : outcome value :=
  match v with
  | VDict kvs =>
      match dict_get key kvs with
      | Some x => Ok x
      | None => Raise (KeyError key)
      end
  | _ => Raise (TypeError (type_of v))
  end.

(** [key in v] for a string key: a key of a dict, an element of a list, a
    substring of a string. *)
Definition py_in (key : string) (v : value) : outcome bool :=
  match v with
  | VDict kvs => Ok (dict_has key kvs)
  | VList xs =>
      Ok (existsb (fun x => match x with
                            | VStr s => String.eqb key s
                            | _ => false
                            end) xs)
  | VStr s => Ok (Str.contains key s)
  | _ => Raise (TypeError (type_of v))
  end.

(** What [for x in v] goes through. *)
Definition py_iter (v : value) : outcome (list value) :=
  match v with
  | VList xs => Ok xs
  | VDict kvs => Ok (map (fun kv => VStr (fst kv)) kvs)
  | VStr s => Ok (map VStr (Str.chars s))
  | _ => Raise (TypeError (type_of v))
  end.

(** [[x for x in xs if cond(x)]], the conditions evaluated in order. *)
Fixpoint comprehension (cond : value -> outcome bool) (xs : list value)
  : outcome (list value) :=
  match xs with
  | [] => Ok []
  | x :: r =>
      keep ← cond x;
      rest ← comprehension cond r;
      mret (if keep : bool then x :: rest else rest)
  end.

(** ** The interpreter and the libraries *)

Record response : Type := {
  status_code : Z;
  content : string }.

Record runtime : Type := {
  (** [s.lower()] *)
  str_lower : string -> string;
  (** the [repr] of [x + n] for the float of [repr] [x] *)
  float_add_int : string -> Z -> string;
  (** [repr(v)], used for lists and dicts *)
  py_repr : value -> string;
  (** [requests.get(url, timeout=30)], given the requests issued before;
      a response of any status is returned, not raised *)
  requests_get : list string -> string -> request_failure + response;
  (** the [.string] of every tag that
      [BeautifulSoup(content, "html.parser").find_all("script",
      type="application/json")] finds *)
  script_strings : string -> list (option string);
  (** [json.loads(text)], [None] for text that is not JSON *)
  json_loads : string -> option value;
  (** whether [open(path, "w")] succeeds *)
  can_open : string -> bool }.

(** ** The world and computations *)

Record world : Type := {
  files : gmap string string;
  stdout : list string;
  requests : list string }.

Definition M (A : Type) : Type := world -> outcome A * world.

#[global] Instance M_ret : MRet M := fun A a w => (Ok a, w).

#[global] Instance M_bind : MBind M := fun A B f m w =>
  match m w with
  | (Ok a, w') => f a w'
  | (Raise e, w') => (Raise e, w')
  end.

Definition lift {A : Type} (o : outcome A) : M A := fun w => (o, w).

Definition raise {A : Type} (e : exn) : M A := lift (Raise e).

Definition with_file (path text : string) (w : world) : world :=
  {| files := <[path := text]> (files w); stdout := stdout w;
     requests := requests w |}.

Definition with_line (line : string) (w : world) : world :=
  {| files := files w; stdout := stdout w ++ [line]; requests := requests w |}.

Definition with_request (url : string) (w : world) : world :=
  {| files := files w; stdout := stdout w; requests := requests w ++ [url] |}.

(** [print(line)] *)
Definition print (line : string) : M unit := fun w => (Ok tt, with_line line w).

(** [f.write(text)] on the file opened at [path] *)
Definition write (path text : string) : M unit := fun w =>
  (Ok tt, with_file path (default "" (files w !! path) +:+ text) w).

(** [for x in xs: body(x)] *)
Fixpoint for_each {A : Type} (body : A -> M unit) (xs : list A) : M unit :=
  match xs with
  | [] => mret tt
  | x :: r => body x ;; for_each body r
  end.

(** ** The script *)

Definition LINKS_CONTAINER_ID : string := "links-container".
Definition LINK_ROOT : string := "../_links".
Definition IMAGE_ROOT : string := "../images".
Definition IMAGE_WEB_ROOT : string := "/images".

Section Script.

Variable rt : runtime.

(** [f"{v}"]: [str(v)]. *)
Definition format (v : value) : string :=
  match v with
  | VNone => "None"
  | VBool true => "True"
  | VBool false => "False"
  | VInt n => Str.of_Z n
  | VFloat r => r
  | VStr s => s
  | VList _ | VDict _ => py_repr rt v
  end.

(** [v + n] for an integer literal [n]; [bool] is a subclass of [int]. *)
Definition add_int (v : value) (n : Z) : outcome value :=
  match v with
  | VInt m => Ok (VInt (m + n))
  | VBool b => Ok (VInt (Z.b2z b + n))
  | VFloat r => Ok (VFloat (float_add_int rt r n))
  | _ => Raise (TypeError (type_of v))
  end.

(** [v.lower()] *)
Definition method_lower (v : value) : outcome string :=
  match v with
  | VStr s => Ok (str_lower rt s)
  | _ => Raise (AttributeError (type_of v) "lower")
  end.

(** [v.split("/")] *)
Definition method_split (v : value) : outcome (list string) :=
  match v with
  | VStr s => Ok (Str.split "/" s)
  | _ => Raise (AttributeError (type_of v) "split")
  end.

(** [open(path, mode)] for writing: the file is created or truncated. *)
Definition open_w (path : string) : M unit := fun w =>
  if can_open rt path then (Ok tt, with_file path "" w)
  else (Raise (OSError path), w).

(** [requests.get(url, timeout=30)] *)
Definition get (url : string) : M response := fun w =>
  match requests_get rt (requests w) url with
  | inl failure => (Raise (RequestException failure), with_request url w)
  | inr r => (Ok r, with_request url w)
  end.

(** Lines 33-58. *)
Definition create_link_file
    (url priority title img_fn image_link : value) (link_fn : string) : M unit :=
  open_w link_fn ;;
  write link_fn ("---" +:+ Str.nl) ;;
  write link_fn ("title: " +:+ format title +:+ Str.nl) ;;
  write link_fn ("link: " +:+ format url +:+ Str.nl) ;;
  write link_fn ("priority: " +:+ format priority +:+ Str.nl) ;;
  (if truthy img_fn
   then write link_fn ("image: " +:+ format image_link +:+ Str.nl)
   else mret tt) ;;
  write link_fn ("---" +:+ Str.nl) ;;
  write link_fn Str.nl.

(** Lines 61-73. *)
Definition stub_title (title : value) : outcome string :=
  lowered ← method_lower title;
  let stub := Re.sub_non_alnum lowered in
  let stub := Re.sub_edge_hyphens stub in
  mret stub.

(** Lines 103-108 of [capture_link]: where the thumbnail is looked for. *)
Definition thumbnail_of (link : value) : outcome value :=
  direct ← py_in "thumbnail" link;
  if direct : bool then subscript link "thumbnail"
  else
    has_modifiers ← py_in "modifiers" link;
    if has_modifiers : bool then
      modifiers ← subscript link "modifiers";
      nested ← py_in "thumbnailImage" modifiers;
      if nested : bool then
        modifiers ← subscript link "modifiers";
        subscript modifiers "thumbnailImage"
      else mret VNone
    else mret VNone.

(** Lines 110-118 of [capture_link]: the download, which yields [img_fn]
    and [image_link]. *)
Definition fetch_thumbnail (image_root image_web_root : string) (img : value)
  : M (value * value) :=
  if truthy img then
    print "   ...downloading thumbnail" ;;
    parts ← lift (method_split img);
    let img_name := Str.last_item parts in
    let img_fn := image_root +:+ "/" +:+ img_name in
    let image_link := image_web_root +:+ "/" +:+ img_name in
    img_response ← get (format img);
    open_w img_fn ;;
    write img_fn (content img_response) ;;
    mret (VStr img_fn, VStr image_link)
  else mret (VNone, VNone).

(** Lines 76-123. *)
Definition capture_link (link_root image_root image_web_root : string)
    (link : value) : M unit :=
  position ← lift (subscript link "position");
  priority ← lift (add_int position 1);
  title ← lift (subscript link "title");
  print ("Collecting " +:+ format title +:+ "...") ;;
  img ← lift (thumbnail_of link);
  names ← fetch_thumbnail image_root image_web_root img;
  title ← lift (subscript link "title");
  stub ← lift (stub_title title);
  let link_fn := link_root +:+ "/" +:+ stub +:+ ".md" in
  url ← lift (subscript link "url");
  title ← lift (subscript link "title");
  create_link_file url priority title names.1 names.2 link_fn.

(** Lines 143-144 of [collect_link_definitions]: from the parsed document
    to the entries kept. *)
Definition links_of (data : value) : outcome (list value) :=
  props ← subscript data "props";
  page_props ← subscript props "pageProps";
  all_links ← subscript page_props "links";
  entries ← py_iter all_links;
  comprehension (py_in "url") entries.

(** Lines 139-141 of [collect_link_definitions]: from the page to the
    parsed document. *)
Definition page_data (page : string) : outcome value :=
  match script_strings rt page with
  | [] => Raise IndexError
  | None :: _ => Raise (TypeError TNone)
  | Some data_json :: _ =>
      match json_loads rt data_json with
      | Some data => Ok data
      | None => Raise JSONDecodeError
      end
  end.

(** Lines 126-146. *)
Definition collect_link_definitions (linktree_page_url : string)
  : M (list value) :=
  response ← get linktree_page_url;
  data ← lift (page_data (content response));
  valid_links ← lift (links_of data);
  mret valid_links.

(** The module level: lines 27-30 and 149-153. *)
Definition main (argv : list string) : M unit :=
  match argv with
  | [_; linktree_url] =>
      links ← collect_link_definitions linktree_url;
      for_each (capture_link LINK_ROOT IMAGE_ROOT IMAGE_WEB_ROOT) links
  | _ => raise (ValueError "usage: python3 get-links.py <linktree-url>")
  end.

End Script.

(** The world once [capture_link] has printed its progress line. *)
Definition announced (rt : runtime) (title : value) (w : world) : world :=
  with_line ("Collecting " +:+ format rt title +:+ "...") w.

(** ** The specification's vocabulary *)

Module Spec.

(** The descriptor format: header delimiter, [title], [link], [priority],
    [image] when there is one, closing delimiter, blank line. *)
Definition descriptor (title link priority : string) (image : option string)
  : string :=
  "---" +:+ Str.nl +:+
  "title: " +:+ title +:+ Str.nl +:+
  "link: " +:+ link +:+ Str.nl +:+
  "priority: " +:+ priority +:+ Str.nl +:+
  match image with
  | Some ref => "image: " +:+ ref +:+ Str.nl
  | None => ""
  end +:+
  "---" +:+ Str.nl +:+
  Str.nl.

(** [name] is the final path segment of [url]: what follows the last
    slash, or all of [url] when it has none. *)
Definition final_segment (url name : string) : Prop :=
  Str.all (fun c => negb (Ascii.eqb c "/")) name = true /\
  (url = name \/ exists before, url = before +:+ "/" +:+ name).

(** The reference a descriptor gives for a thumbnail: the web root and
    the final path segment of a non-empty URL, and none otherwise. *)
Definition image_ref (image_web_root : string) (img : value) : option string :=
  match img with
  | VStr url =>
      if String.eqb url "" then None
      else Some (image_web_root +:+ "/" +:+ Str.last_item (Str.split "/" url))
  | _ => None
  end.

(** An entry that has a [url] key. *)
Definition has_url (entry : value) : bool :=
  match entry with
  | VDict kvs => dict_has "url" kvs
  | _ => false
  end.

(** How many entries have a [url] key. *)
Fixpoint count_with_url (entries : list value) : nat :=
  match entries with
  | [] => 0%nat
  | entry :: rest =>
      if has_url entry then S (count_with_url rest) else count_with_url rest
  end.

(** Lowercase alphanumerics and hyphens only, no hyphen at either end. *)
Definition is_slug (s : string) : Prop :=
  Str.all Str.is_slug_char s = true /\
  Str.first s <> Some "-"%char /\
  Str.final s <> Some "-"%char.

(** What [stub_title] needs of [str.lower]: the result holds no ASCII
    capital, and text made of slug characters is left as it is. *)
Definition lowers (lower : string -> string) : Prop :=
  (forall s, Str.all (fun c => negb (Str.is_upper c)) (lower s) = true) /\
  (forall s, Str.all Str.is_slug_char s = true -> lower s = s).

(** Following a path of keys from the root of a document: the value
    reached, the first key that is absent, or the type of the first value
    on the way that is not an object. *)
Inductive reached : Type :=
| Found (v : value)
| Absent (segment : string)
| NotAnObject (found : pytype).

Fixpoint walk (path : list string) (v : value) : reached :=
  match path with
  | [] => Found v
  | segment :: rest =>
      match v with
      | VDict kvs =>
          match dict_get segment kvs with
          | Some x => walk rest x
          | None => Absent segment
          end
      | _ => NotAnObject (type_of v)
      end
  end.

Definition links_path : list string := ["props"; "pageProps"; "links"].

(** A success status, 2xx. *)
Definition success (status : Z) : bool := (200 <=? status) && (status <? 300).

End Spec.

(** ** A concrete runtime *)

(** ASCII text, a canned network and parsers, and directories that accept
    every file.  The page and its script are abbreviated to the tokens
    [PAGE] and [DATA]. *)
Module Demo.

Definition lower_char (c : ascii) : ascii :=
  if Str.is_upper c then ascii_of_N (Str.code c + 32) else c.

Fixpoint ascii_lower (s : string) : string :=
  match s with
  | EmptyString => EmptyString
  | String c r => String (lower_char c) (ascii_lower r)
  end.

Definition page_url : string := "https://linktr.ee/example".
Definition image_url : string := "https://cdn.example.com/abc.png".

Definition document (links : value) : value :=
  VDict [("props", VDict [("pageProps", VDict [("links", links)])])].

Definition entry_plain : value :=
  VDict [("position", VInt 0); ("title", VStr "My Site!");
         ("url", VStr "https://example.com")].

Definition entry_image : value :=
  VDict [("position", VInt 1); ("title", VStr "Shop");
         ("url", VStr "https://shop.example.com");
         ("thumbnail", VStr image_url);
         ("modifiers", VDict [("thumbnailImage", VStr "https://cdn.example.com/old.png")])].

Definition entry_header : value :=
  VDict [("position", VInt 2); ("title", VStr "Section")].

Definition entry_no_title : value :=
  VDict [("position", VInt 3); ("url", VStr "https://example.org")].

Definition entry_null_thumbnail : value :=
  VDict [("position", VInt 4); ("title", VStr "Blog");
         ("url", VStr "https://blog.example.com");
         ("thumbnail", VNone); ("modifiers", VInt 5)].

Definition runtime_with (status : Z) (page_failure : option request_failure)
    (doc : value) : runtime :=
  {| str_lower := ascii_lower;
     float_add_int := fun r _ => r;
     py_repr := fun _ => "";
     requests_get := fun _ url =>
       if String.eqb url page_url then
         match page_failure with
         | Some failure => inl failure
         | None => inr {| status_code := status; content := "PAGE" |}
         end
       else if String.eqb url image_url then
         inr {| status_code := 200; content := "PNG" |}
       else inl ConnectionFailed;
     script_strings := fun page =>
       if String.eqb page "PAGE" then [Some "DATA"] else [];
     json_loads := fun text =>
       if String.eqb text "DATA" then Some doc else None;
     can_open := fun _ => true |}.

Definition rt : runtime := runtime_with 200 None (document (VList [entry_plain])).

Definition empty_world : world :=
  {| files := ∅; stdout := []; requests := [] |}.

End Demo.

(** ** An invariant of slugs *)

(** Slug characters only, and no hyphen directly after a hyphen;
    [after_hyphen] tells whether the character before the string was one.
    This is what the first substitution establishes and the second one
    keeps. *)
Fixpoint slug_run (after_hyphen : bool) (s : string) : bool :=
  match s with
  | EmptyString => true
  | String c r =>
      if Str.is_hyphen c then negb after_hyphen && slug_run true r
      else (Str.is_lower c || Str.is_digit c) && slug_run false r
  end.

(** ** Invariants of a run *)


(** A path inside a directory. *)
Definition under (root path : string) : bool := String.prefix (root +:+ "/") path.

(** [w'] is [w] after some writes, prints and at most [n] requests: the
    files outside [scope] are as they were, no file has gone, and lines
    and requests were only added. *)
Definition grown (scope : string -> bool) (n : nat) (w w' : world) : Prop :=
  (forall path, scope path = false -> files w' !! path = files w !! path) /\
  (forall path, is_Some (files w !! path) -> is_Some (files w' !! path)) /\
  (exists lines, stdout w' = (stdout w ++ lines)%list) /\
  (exists urls, requests w' = (requests w ++ urls)%list /\ (length urls <= n)%nat).

Definition confined {A : Type} (scope : string -> bool) (n : nat) (m : M A) : Prop :=
  forall w, grown scope n w (m w).2.

(** ** More runs *)

Module Scenario.

(** The concrete runtime with an [open] that refuses every path under one
    directory. *)
Definition refusing (dir : string) : runtime :=
  {| str_lower := str_lower Demo.rt;
     float_add_int := float_add_int Demo.rt;
     py_repr := py_repr Demo.rt;
     requests_get := requests_get Demo.rt;
     script_strings := script_strings Demo.rt;
     json_loads := json_loads Demo.rt;
     can_open := fun path => negb (under dir path) |}.

(** The concrete runtime with another page behind the script block. *)
Definition serving (page : option string) (doc : option value) : runtime :=
  {| str_lower := str_lower Demo.rt;
     float_add_int := float_add_int Demo.rt;
     py_repr := py_repr Demo.rt;
     requests_get := requests_get Demo.rt;
     script_strings := fun _ => match page with Some text => [Some text] | None => [] end;
     json_loads := fun _ => doc;
     can_open := can_open Demo.rt |}.

Definition entry_unreachable : value :=
  VDict [("position", VInt 0); ("title", VStr "Shop");
         ("url", VStr "https://shop.example.com");
         ("thumbnail", VStr "https://cdn.example.com/missing.png")].

Definition entry_numeric_title : value :=
  VDict [("position", VInt 0); ("title", VInt 2024);
         ("url", VStr "https://example.com");
         ("thumbnail", VStr Demo.image_url)].

Definition entry_numeric_thumbnail : value :=
  VDict [("position", VInt 0); ("title", VStr "Shop");
         ("url", VStr "https://shop.example.com"); ("thumbnail", VInt 7)].

Definition entry_shouting : value :=
  VDict [("position", VInt 5); ("title", VStr "MY SITE");
         ("url", VStr "https://example.net")].

Definition notes : world :=
  {| files := {[ "../notes.txt" := "keep" ]}; stdout := ["earlier"];
     requests := ["https://example.com/earlier"] |}.

End Scenario.

(** * Properties *)

(** ** Characters *)

Ltac each_char c :=
  destruct c as [[] [] [] [] [] [] [] []]; vm_compute; intuition congruence.

Lemma alnum_not_upper (c : ascii) :
  Str.is_alnum c = true -> Str.is_upper c = false ->
  Str.is_hyphen c = false /\ Str.is_lower c || Str.is_digit c = true.
Proof. each_char c. Qed.

Lemma hyphen_is (c : ascii) : Str.is_hyphen c = true <-> c = "-"%char.
Proof. unfold Str.is_hyphen. apply Ascii.eqb_eq. Qed.

Lemma hyphen_not_alnum (c : ascii) :
  Str.is_hyphen c = true -> Str.is_alnum c = false.
Proof. each_char c. Qed.

Lemma lower_digit_alnum (c : ascii) :
  Str.is_lower c || Str.is_digit c = true ->
  Str.is_alnum c = true /\ Str.is_hyphen c = false.
Proof. each_char c. Qed.

Lemma slug_char_cases (c : ascii) :
  Str.is_slug_char c = true <->
  Str.is_hyphen c = true \/ Str.is_lower c || Str.is_digit c = true.
Proof. each_char c. Qed.

Lemma newline_not_slug_char : Str.is_slug_char "010" = false.
Proof. reflexivity. Qed.

(** ** Strings *)

Lemma append_assoc (a b c : string) : (a +:+ b) +:+ c = a +:+ (b +:+ c).
Proof. induction a as [|x a IH]; [reflexivity|]. cbv [String.append]. fold String.append. by rewrite IH. Qed.

Lemma append_empty_l (a : string) : "" +:+ a = a.
Proof. reflexivity. Qed.

Lemma first_drop_hyphens (s : string) :
  Str.first (Str.drop_while Str.is_hyphen s) <> Some "-"%char.
Proof.
  induction s as [|c r IH]; simpl; [discriminate|].
  destruct (Str.is_hyphen c) eqn:E; [exact IH|].
  simpl. intros [= ->]. discriminate E.
Qed.

Lemma drop_hyphens_id (s : string) :
  Str.first s <> Some "-"%char -> Str.drop_while Str.is_hyphen s = s.
Proof.
  destruct s as [|c r]; simpl; [reflexivity|]. intros H.
  destruct (Str.is_hyphen c) eqn:E; [|reflexivity].
  apply hyphen_is in E. subst. congruence.
Qed.

Lemma final_cons (c : ascii) (r : string) :
  Str.final (String c r) = match r with EmptyString => Some c | _ => Str.final r end.
Proof. destruct r; reflexivity. Qed.

Lemma final_hyphen_run (c : ascii) (r : string) :
  Str.is_hyphen c = true -> Str.drop_while Str.is_hyphen r = "" ->
  Str.final (String c r) = Some "-"%char.
Proof.
  revert c. induction r as [|d r IH]; intros c Hc Hr.
  - apply hyphen_is in Hc. by subst.
  - rewrite final_cons. simpl in Hr.
    destruct (Str.is_hyphen d) eqn:E; [|discriminate]. by apply IH.
Qed.

(** ** The two substitutions *)

Lemma sub_runs_slug_run (b : bool) (s : string) :
  Str.all (fun c => negb (Str.is_upper c)) s = true ->
  slug_run b (Re.sub_runs b s) = true.
Proof.
  revert b. induction s as [|c r IH]; intros b H; simpl in *; [reflexivity|].
  apply andb_true_iff in H as [Hc Hr]. apply negb_true_iff in Hc.
  destruct (Str.is_alnum c) eqn:E.
  - destruct (alnum_not_upper c E Hc) as [Hh Hl]. simpl.
    rewrite Hh, Hl. simpl. by apply IH.
  - destruct b; simpl; by apply IH.
Qed.

Lemma slug_run_all (b : bool) (s : string) :
  slug_run b s = true -> Str.all Str.is_slug_char s = true.
Proof.
  revert b. induction s as [|c r IH]; intros b H; simpl in *; [reflexivity|].
  destruct (Str.is_hyphen c) eqn:E; apply andb_true_iff in H as [H1 H2];
    apply andb_true_iff; split; eauto; apply slug_char_cases; auto.
Qed.

Lemma slug_run_drop_hyphens (b b' : bool) (s : string) :
  slug_run b s = true -> slug_run b' (Str.drop_while Str.is_hyphen s) = true.
Proof.
  revert b. induction s as [|c r IH]; intros b H; simpl in *; [reflexivity|].
  destruct (Str.is_hyphen c) eqn:E.
  - apply andb_true_iff in H as [_ H]. by eapply IH.
  - simpl. by rewrite E.
Qed.

Lemma at_dollar_slug_run (b : bool) (s : string) :
  slug_run b s = true -> Re.at_dollar s = true -> s = "".
Proof.
  destruct s as [|c [|d r]]; simpl; try done.
  intros H E. apply Ascii.eqb_eq in E. subst. simpl in H. discriminate.
Qed.

Lemma slug_run_sub_trailing (b : bool) (s : string) :
  slug_run b s = true -> slug_run b (Re.sub_trailing s) = true.
Proof.
  revert b. induction s as [|c r IH]; intros b H; simpl in *; [reflexivity|].
  destruct (Str.is_hyphen c) eqn:E; simpl.
  - apply andb_true_iff in H as [Hb Hr].
    destruct (Re.at_dollar (Str.drop_while Str.is_hyphen r)) eqn:D.
    + by eapply slug_run_drop_hyphens.
    + simpl. rewrite E, Hb. simpl. by apply IH.
  - rewrite E. apply andb_true_iff in H as [Hc Hr]. rewrite Hc. simpl. by apply IH.
Qed.

Lemma first_sub_trailing (s : string) :
  Str.first s <> Some "-"%char -> Str.first (Re.sub_trailing s) <> Some "-"%char.
Proof.
  destruct s as [|c r]; simpl; [done|]. intros H.
  destruct (Str.is_hyphen c) eqn:E.
  - apply hyphen_is in E. subst. congruence.
  - done.
Qed.

Lemma sub_trailing_empty (s : string) :
  Re.sub_trailing s = "" -> Str.drop_while Str.is_hyphen s = "".
Proof.
  induction s as [|c r IH]; simpl; [done|].
  destruct (Str.is_hyphen c) eqn:E; simpl; [|discriminate].
  destruct (Re.at_dollar _); [done | discriminate].
Qed.

Lemma at_dollar_final (s : string) :
  Re.at_dollar s = true -> Str.final s <> Some "-"%char.
Proof.
  destruct s as [|c [|d r]]; simpl; try done.
  intros E [= ->]. discriminate E.
Qed.

Lemma final_sub_trailing (s : string) :
  Str.final (Re.sub_trailing s) <> Some "-"%char.
Proof.
  induction s as [|c r IH]; simpl; [done|].
  destruct (Str.is_hyphen c && Re.at_dollar (Str.drop_while Str.is_hyphen r)) eqn:E.
  - apply andb_true_iff in E as [_ E]. by apply at_dollar_final.
  - rewrite final_cons. destruct (Re.sub_trailing r) eqn:T; [|exact IH].
    apply sub_trailing_empty in T. rewrite T in E. simpl in E.
    rewrite andb_true_r in E. intros [= ->]. discriminate E.
Qed.

Lemma sub_runs_id (b : bool) (s : string) :
  slug_run b s = true -> Re.sub_runs b s = s.
Proof.
  revert b. induction s as [|c r IH]; intros b H; simpl in *; [reflexivity|].
  destruct (Str.is_hyphen c) eqn:E.
  - apply andb_true_iff in H as [Hb Hr]. apply negb_true_iff in Hb. subst b.
    rewrite (hyphen_not_alnum c E). apply hyphen_is in E. subst c.
    f_equal. by apply IH.
  - apply andb_true_iff in H as [Hc Hr].
    destruct (lower_digit_alnum c Hc) as [-> _]. f_equal. by apply IH.
Qed.

Lemma sub_trailing_id (b : bool) (s : string) :
  slug_run b s = true -> Str.final s <> Some "-"%char -> Re.sub_trailing s = s.
Proof.
  revert b. induction s as [|c r IH]; intros b H F; simpl in *; [reflexivity|].
  assert (Hr : exists b', slug_run b' r = true).
  { destruct (Str.is_hyphen c); apply andb_true_iff in H as [_ H]; eauto. }
  destruct Hr as [b' Hr].
  destruct (Str.is_hyphen c && Re.at_dollar (Str.drop_while Str.is_hyphen r)) eqn:E.
  - apply andb_true_iff in E as [Ec E]. exfalso. apply F.
    apply final_hyphen_run; [done|].
    eapply at_dollar_slug_run; [|exact E].
    by eapply (slug_run_drop_hyphens b' true).
  - f_equal. apply (IH b' Hr). destruct r; [done|]. exact F.
Qed.

(** The flag of [sub_runs] implements the greedy match: a character
    outside the class starts a match that takes the whole run, and the
    scan resumes behind the run. *)
Lemma sub_runs_skip (s : string) :
  Re.sub_runs true s
  = Re.sub_runs false (Str.drop_while (fun c => negb (Str.is_alnum c)) s).
Proof.
  induction s as [|c r IH]; simpl; [reflexivity|].
  destruct (Str.is_alnum c) eqn:E; simpl; [by rewrite E | exact IH].
Qed.

Lemma sub_non_alnum_match (c : ascii) (r : string) :
  Str.is_alnum c = false ->
  Re.sub_non_alnum (String c r)
  = String "-" (Re.sub_non_alnum (Str.drop_while (fun c => negb (Str.is_alnum c)) r)).
Proof.
  intros E. unfold Re.sub_non_alnum. simpl. rewrite E. f_equal. apply sub_runs_skip.
Qed.

Lemma sub_non_alnum_keep (c : ascii) (r : string) :
  Str.is_alnum c = true ->
  Re.sub_non_alnum (String c r) = String c (Re.sub_non_alnum r).
Proof. intros E. unfold Re.sub_non_alnum. simpl. by rewrite E. Qed.

(** ** The concrete runtime lowers *)

Lemma lower_char_not_upper (c : ascii) : Str.is_upper (Demo.lower_char c) = false.
Proof. each_char c. Qed.

Lemma lower_char_slug (c : ascii) :
  Str.is_slug_char c = true -> Demo.lower_char c = c.
Proof. each_char c. Qed.

Lemma ascii_lower_lowers : Spec.lowers Demo.ascii_lower.
Proof.
  split; intros s.
  - induction s as [|c r IH]; simpl; [reflexivity|].
    by rewrite lower_char_not_upper, IH.
  - induction s as [|c r IH]; simpl; [reflexivity|].
    intros [Hc Hr]%andb_true_iff. by rewrite lower_char_slug, IH.
Qed.

(** ** Slugs *)

(** C1.  For every title string, [stub_title] returns a slug: lowercase
    alphanumerics and hyphens only, with no hyphen at either end; and the
    slug of a slug is the slug itself.  [str.lower] is the interpreter's:
    the script relies on its result having no ASCII capital and on its
    leaving slug characters alone. *)
Theorem stub_title_slug (rt : runtime) (T : string) :
  Spec.lowers (str_lower rt) ->
  exists slug,
    stub_title rt (VStr T) = Ok slug /\
    Spec.is_slug slug /\
    stub_title rt (VStr slug) = Ok slug.
Proof.
  intros [Hup Hfix].
  set (u := Re.sub_non_alnum (str_lower rt T)).
  assert (Hu : slug_run false u = true) by apply sub_runs_slug_run, Hup.
  set (d := Str.drop_while Str.is_hyphen u).
  assert (Hd : slug_run false d = true) by (by eapply slug_run_drop_hyphens).
  assert (Hs : slug_run false (Re.sub_trailing d) = true)
    by (by apply slug_run_sub_trailing).
  assert (Hfirst : Str.first (Re.sub_trailing d) <> Some "-"%char)
    by apply first_sub_trailing, first_drop_hyphens.
  pose proof (final_sub_trailing d) as Hfinal.
  exists (Re.sub_trailing d). split; [reflexivity|]. split.
  - split; [by eapply slug_run_all | done].
  - unfold stub_title, method_lower. simpl.
    rewrite Hfix by (by eapply slug_run_all).
    unfold Re.sub_non_alnum, Re.sub_edge_hyphens.
    rewrite (sub_runs_id false _ Hs), (drop_hyphens_id _ Hfirst).
    by rewrite (sub_trailing_id false _ Hs Hfinal).
Qed.

Lemma stub_title_slug_witness :
  Spec.lowers (str_lower Demo.rt) /\
  exists slug,
    stub_title Demo.rt (VStr "  My Site!! (v2) ") = Ok slug /\
    Spec.is_slug slug /\
    stub_title Demo.rt (VStr slug) = Ok slug.
Proof.
  split; [exact ascii_lower_lowers|].
  exact (stub_title_slug Demo.rt "  My Site!! (v2) " ascii_lower_lowers).
Defined.

Example stub_title_my_site : stub_title Demo.rt (VStr "My Site!") = Ok "my-site".
Proof. reflexivity. Qed.

Example stub_title_not_str :
  stub_title Demo.rt (VInt 7) = Raise (AttributeError TInt "lower").
Proof. reflexivity. Qed.

(** ** Steps of a computation *)

Lemma bind_step {A B : Type} (m : M A) (f : A -> M B) (w w' : world) (a : A) :
  m w = (Ok a, w') -> (m ≫= f) w = f a w'.
Proof. intros H. unfold mbind, M_bind. by rewrite H. Qed.

Lemma bind_raise {A B : Type} (m : M A) (f : A -> M B) (w w' : world) (e : exn) :
  m w = (Raise e, w') -> (m ≫= f) w = (Raise e, w').
Proof. intros H. unfold mbind, M_bind. by rewrite H. Qed.

Lemma bind_lift_ok {A B : Type} (a : A) (f : A -> M B) (w : world) :
  (lift (Ok a) ≫= f) w = f a w.
Proof. reflexivity. Qed.

Lemma bind_lift_raise {A B : Type} (e : exn) (f : A -> M B) (w : world) :
  (lift (Raise e) ≫= f) w = (Raise e, w).
Proof. reflexivity. Qed.

Lemma with_file_twice (path a b : string) (w : world) :
  with_file path b (with_file path a w) = with_file path b w.
Proof. unfold with_file. simpl. by rewrite insert_insert_eq. Qed.

Lemma write_opened (path old text : string) (w : world) :
  write path text (with_file path old w) = (Ok tt, with_file path (old +:+ text) w).
Proof.
  unfold write. simpl. rewrite lookup_insert_eq. simpl.
  by rewrite with_file_twice.
Qed.

Lemma open_w_ok (rt : runtime) (path : string) (w : world) :
  can_open rt path = true -> open_w rt path w = (Ok tt, with_file path "" w).
Proof. intros H. unfold open_w. by rewrite H. Qed.

(** ** The descriptor *)

Lemma create_link_file_content (rt : runtime)
    (url priority title img_fn image_link : value) (link_fn : string) (w : world) :
  can_open rt link_fn = true ->
  create_link_file rt url priority title img_fn image_link link_fn w
  = (Ok tt,
     with_file link_fn
       (Spec.descriptor (format rt title) (format rt url) (format rt priority)
          (if truthy img_fn then Some (format rt image_link) else None)) w).
Proof.
  intros Hopen. unfold create_link_file.
  rewrite (bind_step _ _ _ _ _ (open_w_ok rt link_fn w Hopen)).
  repeat rewrite (bind_step _ _ _ _ _ (write_opened _ _ _ _)).
  destruct (truthy img_fn).
  - repeat rewrite (bind_step _ _ _ _ _ (write_opened _ _ _ _)).
    rewrite write_opened. do 2 f_equal. unfold Spec.descriptor.
    rewrite !append_assoc. reflexivity.
  - rewrite (bind_step (mret tt) _ _ _ tt eq_refl).
    repeat rewrite (bind_step _ _ _ _ _ (write_opened _ _ _ _)).
    rewrite write_opened. do 2 f_equal. unfold Spec.descriptor.
    rewrite !append_assoc. reflexivity.
Qed.

Lemma create_link_file_closed (rt : runtime)
    (url priority title img_fn image_link : value) (link_fn : string) (w : world) :
  can_open rt link_fn = false ->
  create_link_file rt url priority title img_fn image_link link_fn w
  = (Raise (OSError link_fn), w).
Proof.
  intros Hopen. unfold create_link_file. apply bind_raise.
  unfold open_w. by rewrite Hopen.
Qed.

(** ** The final path segment *)

Lemma last_nonempty (x : string) (xs : list string) (d d' : string) :
  List.last (x :: xs) d = List.last (x :: xs) d'.
Proof.
  revert x. induction xs as [|y xs IH]; intros x; [reflexivity|].
  change (List.last (y :: xs) d = List.last (y :: xs) d'). apply IH.
Qed.

Lemma append_cons (c : ascii) (a b : string) :
  String c a +:+ b = String c (a +:+ b).
Proof. reflexivity. Qed.

Lemma append_no_slash (before name : string) :
  Str.all (fun c => negb (Ascii.eqb c "/")) (before +:+ "/" +:+ name) = false.
Proof.
  induction before as [|d before IH]; [reflexivity|].
  rewrite append_cons. simpl. rewrite IH. apply andb_false_r.
Qed.

Lemma split_last (s : string) :
  exists w ws, Str.split "/" s = w :: ws /\
    Str.all (fun c => negb (Ascii.eqb c "/")) (List.last ws w) = true /\
    match ws with
    | [] => s = w
    | _ => exists before, s = before +:+ "/" +:+ List.last ws w
    end.
Proof.
  induction s as [|c r (w & ws & Hsplit & Hno & Hseg)].
  - by exists "", [].
  - simpl. rewrite Hsplit. destruct (Ascii.eqb c "/") eqn:E.
    + apply Ascii.eqb_eq in E. subst c.
      exists "", (w :: ws). split; [reflexivity|].
      destruct ws as [|x ws].
      * simpl in *. subst r. split; [exact Hno | by exists ""].
      * change (List.last (w :: x :: ws) "") with (List.last (x :: ws) "").
        rewrite (last_nonempty x ws "" w). split; [exact Hno|].
        destruct Hseg as [before ->]. by exists (String "/" before).
    + exists (String c w), ws. split; [reflexivity|].
      destruct ws as [|x ws].
      * simpl in *. subst r. split; [by rewrite E | done].
      * rewrite (last_nonempty x ws (String c w) w). split; [exact Hno|].
        destruct Hseg as [before ->]. by exists (String c before).
Qed.

Lemma last_item_final_segment (url : string) :
  Spec.final_segment url (Str.last_item (Str.split "/" url)).
Proof.
  destruct (split_last url) as (w & ws & -> & Hno & Hseg).
  unfold Str.last_item.
  destruct ws as [|x ws].
  - simpl in *. subst. split; [done | by left].
  - rewrite (last_nonempty x ws w "") in Hno, Hseg.
    change (List.last (w :: x :: ws) "") with (List.last (x :: ws) "").
    split; [done | by right].
Qed.

Lemma bind_print {B : Type} (line : string) (f : unit -> M B) (w : world) :
  (print line ≫= f) w = f tt (with_line line w).
Proof. reflexivity. Qed.

Lemma bind_ext {A B : Type} (m : M A) (f g : A -> M B) (w : world) :
  (forall a w', f a w' = g a w') -> (m ≫= f) w = (m ≫= g) w.
Proof. intros H. unfold mbind, M_bind. destruct (m w) as [[a|e] w']; auto. Qed.

(** ** Reading an entry *)

Lemma subscript_dict (kvs : list (string * value)) (key : string) (v : value) :
  dict_get key kvs = Some v -> subscript (VDict kvs) key = Ok v.
Proof. intros H. unfold subscript. by rewrite H. Qed.

Lemma subscript_missing (kvs : list (string * value)) (key : string) :
  dict_get key kvs = None -> subscript (VDict kvs) key = Raise (KeyError key).
Proof. intros H. unfold subscript. by rewrite H. Qed.

Lemma thumbnail_of_direct (kvs : list (string * value)) (v : value) :
  dict_get "thumbnail" kvs = Some v -> thumbnail_of (VDict kvs) = Ok v.
Proof.
  intros H. unfold thumbnail_of, py_in, dict_has, subscript. by rewrite H.
Qed.

Lemma thumbnail_of_no_modifiers (kvs : list (string * value)) :
  dict_get "thumbnail" kvs = None -> dict_get "modifiers" kvs = None ->
  thumbnail_of (VDict kvs) = Ok VNone.
Proof.
  intros H1 H2. unfold thumbnail_of, py_in, dict_has, subscript. by rewrite H1, H2.
Qed.

Lemma thumbnail_of_modifiers (kvs mods : list (string * value)) :
  dict_get "thumbnail" kvs = None -> dict_get "modifiers" kvs = Some (VDict mods) ->
  thumbnail_of (VDict kvs) = Ok (default VNone (dict_get "thumbnailImage" mods)).
Proof.
  intros H1 H2. unfold thumbnail_of, py_in, dict_has, subscript.
  rewrite H1, H2. simpl.
  by destruct (dict_get "thumbnailImage" mods).
Qed.

(** ** The download *)

Lemma path_not_empty (root name : string) :
  String.eqb (root +:+ "/" +:+ name) "" = false.
Proof. by destruct root. Qed.

Lemma fetch_thumbnail_none (rt : runtime) (image_root image_web_root : string)
    (img : value) (w : world) :
  truthy img = false ->
  fetch_thumbnail rt image_root image_web_root img w = (Ok (VNone, VNone), w).
Proof. intros H. unfold fetch_thumbnail. by rewrite H. Qed.

Lemma fetch_thumbnail_ok (rt : runtime) (image_root image_web_root url : string)
    (r : response) (w : world) :
  url <> "" ->
  requests_get rt (requests w) url = inr r ->
  can_open rt (image_root +:+ "/" +:+ Str.last_item (Str.split "/" url)) = true ->
  fetch_thumbnail rt image_root image_web_root (VStr url) w
  = (Ok (VStr (image_root +:+ "/" +:+ Str.last_item (Str.split "/" url)),
         VStr (image_web_root +:+ "/" +:+ Str.last_item (Str.split "/" url))),
     with_file (image_root +:+ "/" +:+ Str.last_item (Str.split "/" url))
       (content r)
       (with_request url (with_line "   ...downloading thumbnail" w))).
Proof.
  intros Hne Hget Hopen. unfold fetch_thumbnail. simpl.
  destruct (String.eqb_spec url ""); [done|]. simpl.
  rewrite bind_print. rewrite bind_lift_ok.
  assert (Hg : get rt url (with_line "   ...downloading thumbnail" w)
               = (Ok r, with_request url (with_line "   ...downloading thumbnail" w))).
  { unfold get. simpl. by rewrite Hget. }
  rewrite (bind_step _ _ _ _ _ Hg).
  rewrite (bind_step _ _ _ _ _ (open_w_ok rt _ _ Hopen)).
  by rewrite (bind_step _ _ _ _ _ (write_opened _ _ _ _)).
Qed.

Lemma fetch_thumbnail_failed (rt : runtime) (image_root image_web_root url : string)
    (failure : request_failure) (w : world) :
  url <> "" ->
  requests_get rt (requests w) url = inl failure ->
  fetch_thumbnail rt image_root image_web_root (VStr url) w
  = (Raise (RequestException failure),
     with_request url (with_line "   ...downloading thumbnail" w)).
Proof.
  intros Hne Hget. unfold fetch_thumbnail. simpl.
  destruct (String.eqb_spec url ""); [done|]. simpl.
  rewrite bind_print. rewrite bind_lift_ok.
  apply bind_raise. unfold get. simpl. by rewrite Hget.
Qed.

(** What [fetch_thumbnail] has done when it returns. *)
Lemma fetch_thumbnail_returns (rt : runtime) (image_root image_web_root : string)
    (img : value) (names : value * value) (w w1 : world) :
  fetch_thumbnail rt image_root image_web_root img w = (Ok names, w1) ->
  (if truthy names.1 then Some (format rt names.2) else None)
  = Spec.image_ref image_web_root img.
Proof.
  unfold fetch_thumbnail. destruct (truthy img) eqn:T.
  - rewrite bind_print.
    destruct img; unfold method_split;
      try (rewrite bind_lift_raise; discriminate).
    simpl in T. rewrite bind_lift_ok.
    unfold mbind at 1, M_bind at 1.
    destruct (get rt _ _) as [[resp|e] w']; [|discriminate].
    unfold mbind at 1, M_bind at 1. unfold open_w at 1.
    destruct (can_open rt _); [|discriminate].
    rewrite (bind_step _ _ _ _ _ (write_opened _ _ _ _)).
    unfold mret, M_ret. intros [= <- _]. unfold fst, snd, truthy, format.
    rewrite path_not_empty. unfold Spec.image_ref.
    apply negb_true_iff in T. by rewrite T.
  - unfold mret, M_ret. intros [= <- _]. unfold Spec.image_ref.
    destruct img; try done.
    unfold truthy in T. apply negb_false_iff in T. by rewrite T.
Qed.

(** ** One entry *)

Lemma capture_link_entry (rt : runtime) (link_root image_root image_web_root : string)
    (kvs : list (string * value)) (position priority title img : value) (w : world) :
  dict_get "position" kvs = Some position ->
  add_int rt position 1 = Ok priority ->
  dict_get "title" kvs = Some title ->
  thumbnail_of (VDict kvs) = Ok img ->
  capture_link rt link_root image_root image_web_root (VDict kvs) w
  = (names ← fetch_thumbnail rt image_root image_web_root img;
     stub ← lift (stub_title rt title);
     url ← lift (subscript (VDict kvs) "url");
     create_link_file rt url priority title names.1 names.2
       (link_root +:+ "/" +:+ stub +:+ ".md")) (announced rt title w).
Proof.
  intros Hpos Hadd Htitle Himg. unfold capture_link.
  rewrite (subscript_dict _ _ _ Hpos), bind_lift_ok, Hadd, bind_lift_ok.
  rewrite (subscript_dict _ _ _ Htitle), bind_lift_ok.
  rewrite bind_print. rewrite Himg, bind_lift_ok.
  unfold announced. apply bind_ext. intros names w1.
  rewrite bind_lift_ok.
  apply bind_ext. intros stub w2. apply bind_ext. intros url w3.
  by rewrite bind_lift_ok.
Qed.

Lemma to_Z_of_Z (n : Z) : Str.to_Z (Str.of_Z n) = Some n.
Proof.
  unfold Str.to_Z, Str.of_Z. rewrite NilEmpty.isi. simpl.
  by rewrite DecimalZ.of_to.
Qed.

(** What [capture_link] does with an entry whose [position] can be
    incremented and whose [title] is text, once the thumbnail step has
    returned. *)
Lemma capture_link_done (rt : runtime) (link_root image_root image_web_root : string)
    (kvs : list (string * value)) (position priority url img : value)
    (title slug : string) (names : value * value) (w w1 : world) :
  dict_get "position" kvs = Some position ->
  add_int rt position 1 = Ok priority ->
  dict_get "title" kvs = Some (VStr title) ->
  dict_get "url" kvs = Some url ->
  thumbnail_of (VDict kvs) = Ok img ->
  fetch_thumbnail rt image_root image_web_root img (announced rt (VStr title) w)
  = (Ok names, w1) ->
  stub_title rt (VStr title) = Ok slug ->
  can_open rt (link_root +:+ "/" +:+ slug +:+ ".md") = true ->
  capture_link rt link_root image_root image_web_root (VDict kvs) w
  = (Ok tt,
     with_file (link_root +:+ "/" +:+ slug +:+ ".md")
       (Spec.descriptor title (format rt url) (format rt priority)
          (Spec.image_ref image_web_root img)) w1).
Proof.
  intros Hpos Hadd Htitle Hurl Himg Hfetch Hslug Hopen.
  rewrite (capture_link_entry _ _ _ _ _ _ _ _ _ _ Hpos Hadd Htitle Himg).
  rewrite (bind_step _ _ _ _ _ Hfetch), Hslug, bind_lift_ok.
  rewrite (subscript_dict _ _ _ Hurl), bind_lift_ok.
  rewrite create_link_file_content by done.
  by rewrite (fetch_thumbnail_returns _ _ _ _ _ _ _ Hfetch).
Qed.

(** ** Thumbnail resolution *)

(** C3.  An entry's [thumbnail] value is the thumbnail whenever the key is
    there, whatever [modifiers] holds; without it, the
    [thumbnailImage] of the [modifiers] object is; without that either
    (no [modifiers], or a [modifiers] object lacking the key) there is no
    image: nothing is downloaded and the world is left as it was. *)
Theorem thumbnail_resolution (rt : runtime) (kvs : list (string * value)) :
  (forall v, dict_get "thumbnail" kvs = Some v ->
     thumbnail_of (VDict kvs) = Ok v) /\
  (forall mods v,
     dict_get "thumbnail" kvs = None ->
     dict_get "modifiers" kvs = Some (VDict mods) ->
     dict_get "thumbnailImage" mods = Some v ->
     thumbnail_of (VDict kvs) = Ok v) /\
  (dict_get "thumbnail" kvs = None ->
   (dict_get "modifiers" kvs = None \/
    exists mods, dict_get "modifiers" kvs = Some (VDict mods) /\
                 dict_get "thumbnailImage" mods = None) ->
   thumbnail_of (VDict kvs) = Ok VNone /\
   forall image_root image_web_root w,
     fetch_thumbnail rt image_root image_web_root VNone w = (Ok (VNone, VNone), w) /\
     Spec.image_ref image_web_root VNone = None).
Proof.
  split; [|split].
  - apply thumbnail_of_direct.
  - intros mods v H1 H2 H3.
    by rewrite (thumbnail_of_modifiers _ _ H1 H2), H3.
  - intros H1 H2. split; [|done].
    destruct H2 as [H2|(mods & H2 & H3)].
    + by apply thumbnail_of_no_modifiers.
    + by rewrite (thumbnail_of_modifiers _ _ H1 H2), H3.
Qed.

Lemma thumbnail_resolution_witness :
  thumbnail_of Demo.entry_image = Ok (VStr Demo.image_url) /\
  thumbnail_of
    (VDict [("url", VStr "u");
            ("modifiers", VDict [("thumbnailImage", VStr "https://cdn.example.com/old.png")])])
  = Ok (VStr "https://cdn.example.com/old.png") /\
  thumbnail_of Demo.entry_plain = Ok VNone.
Proof.
  split; [|split].
  - apply (proj1 (thumbnail_resolution Demo.rt _)). reflexivity.
  - eapply (proj1 (proj2 (thumbnail_resolution Demo.rt _))); reflexivity.
  - apply (proj2 (proj2 (thumbnail_resolution Demo.rt _))); [reflexivity|].
    left. reflexivity.
Defined.

(** A [modifiers] value that is no object is outside the payload's
    shape; there the lookup raises. *)
Example thumbnail_of_null_modifiers :
  thumbnail_of (VDict [("url", VStr "u"); ("modifiers", VNone)])
  = Raise (TypeError TNone).
Proof. reflexivity. Qed.

(** ** The descriptor file *)

(** C4.  For an entry with an integer [position], a text [title] and a
    [url], once the thumbnail step has returned, [capture_link] has
    [create_link_file] write the file [{link_root}/{slug}.md], which
    [open] must accept.  Its content is the header delimiter, the [title]
    line, the [link] line, the [priority] line, the [image] line exactly
    when the entry has a thumbnail, the closing delimiter and a blank
    line; nothing else changes. *)
Theorem descriptor_written (rt : runtime) (link_root image_root image_web_root : string)
    (kvs : list (string * value)) (p : Z) (url img : value)
    (title slug : string) (names : value * value) (w w1 : world) :
  dict_get "position" kvs = Some (VInt p) ->
  dict_get "title" kvs = Some (VStr title) ->
  dict_get "url" kvs = Some url ->
  thumbnail_of (VDict kvs) = Ok img ->
  fetch_thumbnail rt image_root image_web_root img (announced rt (VStr title) w)
  = (Ok names, w1) ->
  stub_title rt (VStr title) = Ok slug ->
  can_open rt (link_root +:+ "/" +:+ slug +:+ ".md") = true ->
  capture_link rt link_root image_root image_web_root (VDict kvs) w
  = (Ok tt,
     with_file (link_root +:+ "/" +:+ slug +:+ ".md")
       ("---" +:+ Str.nl +:+
        "title: " +:+ title +:+ Str.nl +:+
        "link: " +:+ format rt url +:+ Str.nl +:+
        "priority: " +:+ Str.of_Z (p + 1) +:+ Str.nl +:+
        (if truthy img
         then "image: " +:+ image_web_root +:+ "/"
              +:+ Str.last_item (Str.split "/" (format rt img)) +:+ Str.nl
         else "") +:+
        "---" +:+ Str.nl +:+
        Str.nl) w1).
Proof.
  intros Hpos Htitle Hurl Himg Hfetch Hslug Hopen.
  rewrite (capture_link_done rt link_root image_root image_web_root kvs
             (VInt p) (VInt (p + 1)) url img title slug names w w1) by done.
  do 2 f_equal. unfold Spec.descriptor. do 12 f_equal.
  unfold fetch_thumbnail in Hfetch. destruct (truthy img) eqn:T.
  - rewrite bind_print in Hfetch.
    destruct img; try (unfold method_split in Hfetch;
                        rewrite bind_lift_raise in Hfetch; discriminate).
    unfold truthy in T. apply negb_true_iff in T.
    unfold Spec.image_ref. rewrite T. simpl. by rewrite !append_assoc.
  - destruct img; try done.
    unfold truthy in T. apply negb_false_iff in T.
    unfold Spec.image_ref. by rewrite T.
Qed.

Lemma descriptor_written_witness :
  capture_link Demo.rt LINK_ROOT IMAGE_ROOT IMAGE_WEB_ROOT Demo.entry_image
    Demo.empty_world
  = (Ok tt,
     {| files :=
          {[ "../_links/shop.md" :=
               Spec.descriptor "Shop" "https://shop.example.com" "2"
                 (Some "/images/abc.png");
             "../images/abc.png" := "PNG" ]};
        stdout := ["Collecting Shop..."; "   ...downloading thumbnail"];
        requests := [Demo.image_url] |}).
Proof.
  unfold Demo.entry_image.
  rewrite (descriptor_written Demo.rt LINK_ROOT IMAGE_ROOT IMAGE_WEB_ROOT _ 1
             (VStr "https://shop.example.com") (VStr Demo.image_url) "Shop" "shop"
             (VStr "../images/abc.png", VStr "/images/abc.png")
             Demo.empty_world
             (with_file "../images/abc.png" "PNG"
                (with_request Demo.image_url
                   (with_line "   ...downloading thumbnail"
                      (announced Demo.rt (VStr "Shop") Demo.empty_world)))));
    reflexivity.
Defined.

(** The scenario of the specification: one entry without a thumbnail. *)
Example round_trip :
  main Demo.rt ["get_links.py"; Demo.page_url] Demo.empty_world
  = (Ok tt,
     {| files :=
          {[ "../_links/my-site.md" :=
               Spec.descriptor "My Site!" "https://example.com" "1" None ]};
        stdout := ["Collecting My Site!..."];
        requests := [Demo.page_url] |}).
Proof. reflexivity. Qed.

(** ** Priority *)

(** C7.  For an entry with an integer [position] [p], a text [title] and
    a [url], the priority [capture_link] computes is [p + 1], and the
    descriptor it writes carries it in decimal on its [priority] line. *)
Theorem priority_one_based (rt : runtime) (link_root image_root image_web_root : string)
    (kvs : list (string * value)) (p : Z) (url img : value)
    (title slug : string) (names : value * value) (w w1 : world) :
  dict_get "position" kvs = Some (VInt p) ->
  dict_get "title" kvs = Some (VStr title) ->
  dict_get "url" kvs = Some url ->
  thumbnail_of (VDict kvs) = Ok img ->
  fetch_thumbnail rt image_root image_web_root img (announced rt (VStr title) w)
  = (Ok names, w1) ->
  stub_title rt (VStr title) = Ok slug ->
  can_open rt (link_root +:+ "/" +:+ slug +:+ ".md") = true ->
  add_int rt (VInt p) 1 = Ok (VInt (p + 1)) /\
  exists w2 priority image,
    capture_link rt link_root image_root image_web_root (VDict kvs) w = (Ok tt, w2) /\
    files w2 !! (link_root +:+ "/" +:+ slug +:+ ".md")
    = Some (Spec.descriptor title (format rt url) priority image) /\
    Str.to_Z priority = Some (p + 1).
Proof.
  intros Hpos Htitle Hurl Himg Hfetch Hslug Hopen. split; [reflexivity|].
  eexists _, (Str.of_Z (p + 1)), _. split; [|split].
  - by apply (capture_link_done rt link_root image_root image_web_root kvs
                (VInt p) (VInt (p + 1)) url img title slug names w w1).
  - simpl. apply lookup_insert_eq.
  - apply to_Z_of_Z.
Qed.

Lemma priority_one_based_witness :
  add_int Demo.rt (VInt 0) 1 = Ok (VInt 1) /\
  exists w2 priority image,
    capture_link Demo.rt LINK_ROOT IMAGE_ROOT IMAGE_WEB_ROOT Demo.entry_plain
      Demo.empty_world = (Ok tt, w2) /\
    files w2 !! (LINK_ROOT +:+ "/" +:+ "my-site" +:+ ".md")
    = Some (Spec.descriptor "My Site!" (format Demo.rt (VStr "https://example.com"))
              priority image) /\
    Str.to_Z priority = Some (0 + 1).
Proof.
  apply (priority_one_based Demo.rt LINK_ROOT IMAGE_ROOT IMAGE_WEB_ROOT _ 0
           (VStr "https://example.com") VNone "My Site!" "my-site"
           (VNone, VNone) Demo.empty_world
           (announced Demo.rt (VStr "My Site!") Demo.empty_world));
    reflexivity.
Defined.

(** ** Thumbnails *)

(** C8.  For an entry (integer [position], text [title], a [url]) whose
    thumbnail is a non-empty URL, when the request for it returns and
    [open] accepts the two files: the file name is the final path segment
    of the URL, the body of the response is written to
    [{image_root}/{name}], and the descriptor, written afterwards, has the
    line [image: {image_web_root}/{name}]. *)
Theorem thumbnail_materialized (rt : runtime)
    (link_root image_root image_web_root : string)
    (kvs : list (string * value)) (p : Z) (url : value)
    (title slug thumbnail : string) (r : response) (w : world) :
  dict_get "position" kvs = Some (VInt p) ->
  dict_get "title" kvs = Some (VStr title) ->
  dict_get "url" kvs = Some url ->
  thumbnail_of (VDict kvs) = Ok (VStr thumbnail) ->
  thumbnail <> "" ->
  requests_get rt (requests w) thumbnail = inr r ->
  stub_title rt (VStr title) = Ok slug ->
  can_open rt (image_root +:+ "/" +:+ Str.last_item (Str.split "/" thumbnail)) = true ->
  can_open rt (link_root +:+ "/" +:+ slug +:+ ".md") = true ->
  exists name,
    Spec.final_segment thumbnail name /\
    capture_link rt link_root image_root image_web_root (VDict kvs) w
    = (Ok tt,
       {| files :=
            <[link_root +:+ "/" +:+ slug +:+ ".md" :=
                Spec.descriptor title (format rt url) (Str.of_Z (p + 1))
                  (Some (image_web_root +:+ "/" +:+ name))]>
              (<[image_root +:+ "/" +:+ name := content r]> (files w));
          stdout := stdout w ++ ["Collecting " +:+ title +:+ "..."]
                             ++ ["   ...downloading thumbnail"];
          requests := requests w ++ [thumbnail] |}).
Proof.
  intros Hpos Htitle Hurl Himg Hne Hget Hslug Hopen_img Hopen.
  exists (Str.last_item (Str.split "/" thumbnail)).
  split; [apply last_item_final_segment|].
  rewrite (capture_link_done rt link_root image_root image_web_root kvs
             (VInt p) (VInt (p + 1)) url (VStr thumbnail) title slug _ w _
             Hpos eq_refl Htitle Hurl Himg
             (fetch_thumbnail_ok rt image_root image_web_root thumbnail r
                (announced rt (VStr title) w) Hne Hget Hopen_img) Hslug Hopen).
  unfold Spec.image_ref. destruct (String.eqb_spec thumbnail ""); [done|].
  unfold with_file, with_request, with_line, announced. simpl.
  by rewrite <- app_assoc.
Qed.

Lemma thumbnail_materialized_witness :
  exists name,
    Spec.final_segment "https://cdn.example.com/abc.png" name /\
    capture_link Demo.rt LINK_ROOT IMAGE_ROOT IMAGE_WEB_ROOT Demo.entry_image
      Demo.empty_world
    = (Ok tt,
       {| files :=
            <[LINK_ROOT +:+ "/" +:+ "shop" +:+ ".md" :=
                Spec.descriptor "Shop" (format Demo.rt (VStr "https://shop.example.com"))
                  (Str.of_Z (1 + 1))
                  (Some (IMAGE_WEB_ROOT +:+ "/" +:+ name))]>
              (<[IMAGE_ROOT +:+ "/" +:+ name := "PNG"]> (files Demo.empty_world));
          stdout := stdout Demo.empty_world ++ ["Collecting " +:+ "Shop" +:+ "..."]
                             ++ ["   ...downloading thumbnail"];
          requests := requests Demo.empty_world ++ ["https://cdn.example.com/abc.png"] |}).
Proof.
  apply (thumbnail_materialized Demo.rt LINK_ROOT IMAGE_ROOT IMAGE_WEB_ROOT _ 1
           (VStr "https://shop.example.com") "Shop" "shop"
           "https://cdn.example.com/abc.png"
           {| status_code := 200; content := "PNG" |} Demo.empty_world);
    (reflexivity || discriminate).
Defined.

(** The scenario of the specification: the file [abc.png] under the image
    root, and the line [image: /images/abc.png]. *)
Example image_scenario :
  Str.last_item (Str.split "/" "https://cdn.example.com/abc.png") = "abc.png" /\
  let w := (capture_link Demo.rt LINK_ROOT IMAGE_ROOT IMAGE_WEB_ROOT
              Demo.entry_image Demo.empty_world).2 in
  files w !! "../images/abc.png" = Some "PNG" /\
  files w !! "../_links/shop.md"
  = Some (Spec.descriptor "Shop" "https://shop.example.com" "2"
            (Some "/images/abc.png")).
Proof. repeat split. Qed.

(** A URL that ends in a slash has an empty final segment; the file to
    open is then the image directory itself. *)
Example trailing_slash_segment :
  Str.last_item (Str.split "/" "https://cdn.example.com/") = "".
Proof. reflexivity. Qed.

(** C10.  When the [thumbnail] key is there and holds [None] or the empty
    string (and the entry has an integer [position], a text [title] and a
    [url]), that value is the thumbnail, whatever [modifiers] holds; it
    is falsy, so no request is issued, no image file is written, and the
    descriptor has no [image] line. *)
Theorem empty_thumbnail_no_image (rt : runtime)
    (link_root image_root image_web_root : string)
    (kvs : list (string * value)) (p : Z) (url v : value)
    (title slug : string) (w : world) :
  dict_get "position" kvs = Some (VInt p) ->
  dict_get "title" kvs = Some (VStr title) ->
  dict_get "url" kvs = Some url ->
  dict_get "thumbnail" kvs = Some v ->
  v = VNone \/ v = VStr "" ->
  stub_title rt (VStr title) = Ok slug ->
  can_open rt (link_root +:+ "/" +:+ slug +:+ ".md") = true ->
  thumbnail_of (VDict kvs) = Ok v /\
  capture_link rt link_root image_root image_web_root (VDict kvs) w
  = (Ok tt,
     {| files :=
          <[link_root +:+ "/" +:+ slug +:+ ".md" :=
              Spec.descriptor title (format rt url) (Str.of_Z (p + 1)) None]>
            (files w);
        stdout := stdout w ++ ["Collecting " +:+ title +:+ "..."];
        requests := requests w |}).
Proof.
  intros Hpos Htitle Hurl Hthumb Hv Hslug Hopen.
  pose proof (thumbnail_of_direct _ _ Hthumb) as Himg. split; [exact Himg|].
  assert (Hfalse : truthy v = false) by (by destruct Hv as [->| ->]).
  rewrite (capture_link_done rt link_root image_root image_web_root kvs
             (VInt p) (VInt (p + 1)) url v title slug _ w _
             Hpos eq_refl Htitle Hurl Himg
             (fetch_thumbnail_none rt image_root image_web_root v
                (announced rt (VStr title) w) Hfalse)
             Hslug Hopen).
  by destruct Hv as [->| ->].
Qed.

Lemma empty_thumbnail_no_image_witness :
  thumbnail_of Demo.entry_null_thumbnail = Ok VNone /\
  capture_link Demo.rt LINK_ROOT IMAGE_ROOT IMAGE_WEB_ROOT
    Demo.entry_null_thumbnail Demo.empty_world
  = (Ok tt,
     {| files :=
          <[LINK_ROOT +:+ "/" +:+ "blog" +:+ ".md" :=
              Spec.descriptor "Blog" (format Demo.rt (VStr "https://blog.example.com"))
                (Str.of_Z (4 + 1)) None]>
            (files Demo.empty_world);
        stdout := stdout Demo.empty_world ++ ["Collecting " +:+ "Blog" +:+ "..."];
        requests := requests Demo.empty_world |}).
Proof.
  apply (empty_thumbnail_no_image Demo.rt LINK_ROOT IMAGE_ROOT IMAGE_WEB_ROOT _ 4
           (VStr "https://blog.example.com") VNone "Blog" "blog" Demo.empty_world);
    try reflexivity.
  left. reflexivity.
Defined.

Example empty_string_thumbnail :
  let entry := VDict [("position", VInt 0); ("title", VStr "A"); ("url", VStr "u");
                      ("thumbnail", VStr "");
                      ("modifiers", VDict [("thumbnailImage", VStr "https://x/y.png")])] in
  thumbnail_of entry = Ok (VStr "") /\
  capture_link Demo.rt LINK_ROOT IMAGE_ROOT IMAGE_WEB_ROOT entry Demo.empty_world
  = (Ok tt,
     {| files := {[ "../_links/a.md" := Spec.descriptor "A" "u" "1" None ]};
        stdout := ["Collecting A..."];
        requests := [] |}).
Proof. split; reflexivity. Qed.

(** ** The filter *)

Lemma comprehension_app (cond : value -> outcome bool) (xs ys kept_xs kept_ys : list value) :
  comprehension cond xs = Ok kept_xs ->
  comprehension cond ys = Ok kept_ys ->
  comprehension cond (xs ++ ys)%list = Ok (kept_xs ++ kept_ys)%list.
Proof.
  revert kept_xs. induction xs as [|x xs IH]; intros kept_xs Hx Hy; simpl in *.
  - by injection Hx as <-.
  - destruct (cond x) as [keep|e]; [|discriminate]. simpl in *.
    destruct (comprehension cond xs) as [rest|e]; [|discriminate]. simpl in *.
    injection Hx as <-. rewrite (IH rest eq_refl Hy). simpl.
    by destruct keep.
Qed.

Lemma comprehension_dicts (entries : list value) :
  Forall (fun entry => is_dict entry = true) entries ->
  comprehension (py_in "url") entries = Ok (List.filter Spec.has_url entries).
Proof.
  induction 1 as [|entry entries Hd _ IH]; [reflexivity|].
  destruct entry; try discriminate. simpl. by rewrite IH.
Qed.

Lemma filter_count (entries : list value) :
  length (List.filter Spec.has_url entries) = Spec.count_with_url entries.
Proof.
  induction entries as [|entry entries IH]; [reflexivity|]. simpl.
  destruct (Spec.has_url entry); simpl; by rewrite IH.
Qed.

Lemma filter_sublist (entries : list value) :
  sublist (List.filter Spec.has_url entries) entries.
Proof.
  induction entries as [|entry entries IH]; simpl; [constructor|].
  destruct (Spec.has_url entry); by constructor.
Qed.

(** [links_of] along the path [props.pageProps.links]. *)
Lemma links_of_walk (data : value) :
  links_of data
  = match Spec.walk Spec.links_path data with
    | Spec.Found all_links =>
        entries ← py_iter all_links; comprehension (py_in "url") entries
    | Spec.Absent segment => Raise (KeyError segment)
    | Spec.NotAnObject found => Raise (TypeError found)
    end.
Proof.
  unfold links_of, Spec.links_path, Spec.walk, subscript.
  destruct data as [| | | | | |kvs]; try reflexivity.
  destruct (dict_get "props" kvs) as [props|]; [|reflexivity]. simpl.
  destruct props as [| | | | | |kvs1]; try reflexivity.
  destruct (dict_get "pageProps" kvs1) as [page_props|]; [|reflexivity]. simpl.
  destruct page_props as [| | | | | |kvs2]; try reflexivity.
  by destruct (dict_get "links" kvs2).
Qed.

(** C2.  When [props.pageProps.links] is a list of objects, the entries
    kept are exactly the entries that have a [url] key, in their original
    order, and there are as many as the list has entries with the key. *)
Theorem normalizer_keeps_url_entries (data : value) (entries : list value) :
  Spec.walk Spec.links_path data = Spec.Found (VList entries) ->
  Forall (fun entry => is_dict entry = true) entries ->
  exists kept,
    links_of data = Ok kept /\
    kept = List.filter Spec.has_url entries /\
    (forall entry, In entry kept <-> In entry entries /\ Spec.has_url entry = true) /\
    sublist kept entries /\
    length kept = Spec.count_with_url entries.
Proof.
  intros Hwalk Hdicts. exists (List.filter Spec.has_url entries).
  split; [|split; [reflexivity|split; [|split]]].
  - rewrite links_of_walk, Hwalk. simpl. by apply comprehension_dicts.
  - intros entry. apply filter_In.
  - apply filter_sublist.
  - apply filter_count.
Qed.

Lemma normalizer_keeps_url_entries_witness :
  exists kept,
    links_of (Demo.document
                (VList [Demo.entry_plain; Demo.entry_header; Demo.entry_image]))
    = Ok kept /\
    kept = List.filter Spec.has_url
             [Demo.entry_plain; Demo.entry_header; Demo.entry_image] /\
    (forall entry,
       In entry kept <->
       In entry [Demo.entry_plain; Demo.entry_header; Demo.entry_image] /\
       Spec.has_url entry = true) /\
    sublist kept [Demo.entry_plain; Demo.entry_header; Demo.entry_image] /\
    length kept
    = Spec.count_with_url [Demo.entry_plain; Demo.entry_header; Demo.entry_image].
Proof.
  apply normalizer_keeps_url_entries; [reflexivity|].
  repeat constructor.
Defined.

Example normalizer_drops_header :
  links_of (Demo.document
              (VList [Demo.entry_plain; Demo.entry_header; Demo.entry_image]))
  = Ok [Demo.entry_plain; Demo.entry_image].
Proof. reflexivity. Qed.

(** Entries that are no objects are outside the payload's shape: a
    number makes the filter raise, and a string is kept when [url] occurs
    in it. *)
Example normalizer_number_entry :
  links_of (Demo.document (VList [Demo.entry_plain; VInt 3]))
  = Raise (TypeError TInt).
Proof. reflexivity. Qed.

Example normalizer_string_entry :
  links_of (Demo.document (VList [VStr "curl"; VStr "wget"])) = Ok [VStr "curl"].
Proof. reflexivity. Qed.

(** ** The path to the links *)

(** C5, as the script has it.  When a key of [props.pageProps.links] is
    absent from the object that should hold it, [links_of] raises a
    [KeyError] that carries this key; when a value on the way is no
    object, it raises a [TypeError], which tells the type found and not
    the key.  No list is returned in either case. *)
Theorem missing_path_raises (data : value) :
  (forall segment,
     Spec.walk Spec.links_path data = Spec.Absent segment ->
     In segment Spec.links_path /\ links_of data = Raise (KeyError segment)) /\
  (forall found,
     Spec.walk Spec.links_path data = Spec.NotAnObject found ->
     found <> TDict /\ links_of data = Raise (TypeError found)).
Proof.
  split.
  - intros segment H. split; [|by rewrite links_of_walk, H].
    revert H. unfold Spec.links_path, Spec.walk.
    destruct data as [| | | | | |kvs]; try discriminate.
    destruct (dict_get "props" kvs) as [props|]; [|intros [= <-]; simpl; auto].
    destruct props as [| | | | | |kvs1]; try discriminate.
    destruct (dict_get "pageProps" kvs1) as [pp|]; [|intros [= <-]; simpl; auto].
    destruct pp as [| | | | | |kvs2]; try discriminate.
    destruct (dict_get "links" kvs2); [discriminate | intros [= <-]; simpl; auto].
  - intros found H. split; [|by rewrite links_of_walk, H].
    revert H. unfold Spec.links_path, Spec.walk.
    destruct data as [| | | | | |kvs]; try (intros [= <-]; discriminate).
    destruct (dict_get "props" kvs) as [props|]; [|discriminate].
    destruct props as [| | | | | |kvs1]; try (intros [= <-]; discriminate).
    destruct (dict_get "pageProps" kvs1) as [pp|]; [|discriminate].
    destruct pp as [| | | | | |kvs2]; try (intros [= <-]; discriminate).
    destruct (dict_get "links" kvs2); discriminate.
Qed.

Lemma missing_path_raises_witness :
  (In "pageProps" Spec.links_path /\
   links_of (VDict [("props", VDict [("page", VNone)])])
   = Raise (KeyError "pageProps")) /\
  (TList <> TDict /\
   links_of (VDict [("props", VList [])]) = Raise (TypeError TList)).
Proof.
  split.
  - apply (proj1 (missing_path_raises _)). reflexivity.
  - apply (proj2 (missing_path_raises _)). reflexivity.
Defined.

(** The whole path missing: the scenario of the specification. *)
Example missing_path_scenario : links_of (VDict []) = Raise (KeyError "props").
Proof. reflexivity. Qed.

(** C5 as stated fails.  A [links] value of the wrong shape, here an
    object instead of a list, yields the empty list and no error; and a
    [props] value of the wrong shape, here a list, yields an error that
    carries the type [list] and no segment. *)
Lemma wrong_shape_not_reported :
  Spec.walk Spec.links_path (Demo.document (VDict [])) = Spec.Found (VDict []) /\
  links_of (Demo.document (VDict [])) = Ok [] /\
  links_of (VDict [("props", VList [])]) = Raise (TypeError TList).
Proof. repeat split. Qed.

(** ** The page request *)

Lemma collect_link_definitions_get (rt : runtime) (url : string) (w : world) :
  collect_link_definitions rt url w
  = match requests_get rt (requests w) url with
    | inl failure => (Raise (RequestException failure), with_request url w)
    | inr r => (page_data rt (content r) ≫= links_of, with_request url w)
    end.
Proof.
  unfold collect_link_definitions, get, mbind at 1, M_bind at 1.
  destruct (requests_get rt (requests w) url) as [failure|r]; [reflexivity|].
  destruct (page_data rt (content r)) as [data|e]; [|reflexivity].
  rewrite bind_lift_ok. simpl.
  by destruct (links_of data).
Qed.

(** C6, as the script has it.  When the request for the page fails (no
    connection, a timeout, any other [RequestException]), the exception
    leaves [collect_link_definitions] and ends the run: nothing is
    printed and no file is written.  When the request returns a response,
    the outcome is computed from its body alone, whatever its status. *)
Theorem page_request_failure_propagates (rt : runtime) (url : string) (w : world) :
  (forall failure,
     requests_get rt (requests w) url = inl failure ->
     collect_link_definitions rt url w
     = (Raise (RequestException failure), with_request url w) /\
     forall program,
       main rt [program; url] w
       = (Raise (RequestException failure), with_request url w)) /\
  (forall r,
     requests_get rt (requests w) url = inr r ->
     collect_link_definitions rt url w
     = (page_data rt (content r) ≫= links_of, with_request url w)).
Proof.
  split.
  - intros failure H.
    assert (Hc : collect_link_definitions rt url w
                 = (Raise (RequestException failure), with_request url w))
      by (by rewrite collect_link_definitions_get, H).
    split; [exact Hc|]. intros program. unfold main. by apply bind_raise.
  - intros r H. by rewrite collect_link_definitions_get, H.
Qed.

Lemma page_request_failure_propagates_witness :
  let rt := Demo.runtime_with 200 (Some TimedOut) (Demo.document (VList [Demo.entry_plain])) in
  collect_link_definitions rt Demo.page_url Demo.empty_world
  = (Raise (RequestException TimedOut), with_request Demo.page_url Demo.empty_world) /\
  forall program,
    main rt [program; Demo.page_url] Demo.empty_world
    = (Raise (RequestException TimedOut), with_request Demo.page_url Demo.empty_world).
Proof.
  intros rt.
  apply (proj1 (page_request_failure_propagates rt Demo.page_url Demo.empty_world)).
  reflexivity.
Defined.

(** C6 as stated fails: the page comes back with status 404, which is no
    success, and the script reads the links from its body and completes
    the run. *)
Lemma page_status_not_checked :
  let rt := Demo.runtime_with 404 None (Demo.document (VList [Demo.entry_plain])) in
  requests_get rt [] Demo.page_url = inr {| status_code := 404; content := "PAGE" |} /\
  Spec.success 404 = false /\
  collect_link_definitions rt Demo.page_url Demo.empty_world
  = (Ok [Demo.entry_plain], with_request Demo.page_url Demo.empty_world) /\
  (main rt ["get_links.py"; Demo.page_url] Demo.empty_world).1 = Ok tt.
Proof. repeat split. Qed.

(** ** Entries with a [url] and no [position] or [title] *)

Lemma for_each_raise {A : Type} (body : A -> M unit) (before after : list A)
    (x : A) (e : exn) (w w1 w2 : world) :
  for_each body before w = (Ok tt, w1) ->
  body x w1 = (Raise e, w2) ->
  for_each body (before ++ x :: after)%list w = (Raise e, w2).
Proof.
  revert w. induction before as [|y before IH]; intros w Hb Hx; simpl in *.
  - injection Hb as <-. by apply bind_raise.
  - unfold mbind, M_bind in *. destruct (body y w) as [[[]|e'] w'].
    + by apply IH.
    + discriminate.
Qed.

(** C9.  An entry that has a [url] key passes the filter, whatever else
    it holds.  If it has no [position] key, or has a [position] that can
    be incremented and no [title] key, [capture_link] raises the
    [KeyError] of the missing key before it prints or writes anything,
    and the run ends there: the entries after it are not processed. *)
Theorem missing_field_aborts (rt : runtime) (kvs : list (string * value))
    (key : string) :
  dict_has "url" kvs = true ->
  (key = "position" /\ dict_get "position" kvs = None) \/
  (key = "title" /\ dict_get "title" kvs = None /\
   exists position priority,
     dict_get "position" kvs = Some position /\
     add_int rt position 1 = Ok priority) ->
  (forall before after kept_before kept_after,
     comprehension (py_in "url") before = Ok kept_before ->
     comprehension (py_in "url") after = Ok kept_after ->
     comprehension (py_in "url") (before ++ VDict kvs :: after)%list
     = Ok (kept_before ++ VDict kvs :: kept_after)%list) /\
  (forall link_root image_root image_web_root w,
     capture_link rt link_root image_root image_web_root (VDict kvs) w
     = (Raise (KeyError key), w)) /\
  (forall program url before after w w0 w1,
     collect_link_definitions rt url w
     = (Ok (before ++ VDict kvs :: after)%list, w0) ->
     for_each (capture_link rt LINK_ROOT IMAGE_ROOT IMAGE_WEB_ROOT) before w0
     = (Ok tt, w1) ->
     main rt [program; url] w = (Raise (KeyError key), w1)).
Proof.
  intros Hurl Hmissing.
  assert (Hraise : forall link_root image_root image_web_root w,
             capture_link rt link_root image_root image_web_root (VDict kvs) w
             = (Raise (KeyError key), w)).
  { intros link_root image_root image_web_root w. unfold capture_link.
    destruct Hmissing as [[-> Hpos]|(-> & Htitle & position & priority & Hpos & Hadd)].
    - by rewrite (subscript_missing _ _ Hpos).
    - rewrite (subscript_dict _ _ _ Hpos), bind_lift_ok, Hadd, bind_lift_ok.
      by rewrite (subscript_missing _ _ Htitle). }
  split; [|split; [exact Hraise|]].
  - intros before after kept_before kept_after Hb Ha.
    apply comprehension_app; [exact Hb|]. simpl. by rewrite Hurl, Ha.
  - intros program url before after w w0 w1 Hcollect Hbefore. unfold main.
    rewrite (bind_step _ _ _ _ _ Hcollect).
    by eapply for_each_raise.
Qed.

Lemma missing_field_aborts_witness :
  let rt := Demo.runtime_with 200 None
              (Demo.document
                 (VList [Demo.entry_plain; Demo.entry_header; Demo.entry_no_title;
                         Demo.entry_image])) in
  links_of (Demo.document
              (VList [Demo.entry_plain; Demo.entry_header; Demo.entry_no_title;
                      Demo.entry_image]))
  = Ok [Demo.entry_plain; Demo.entry_no_title; Demo.entry_image] /\
  capture_link rt LINK_ROOT IMAGE_ROOT IMAGE_WEB_ROOT Demo.entry_no_title
    Demo.empty_world
  = (Raise (KeyError "title"), Demo.empty_world) /\
  main rt ["get_links.py"; Demo.page_url] Demo.empty_world
  = (Raise (KeyError "title"),
     {| files :=
          {[ "../_links/my-site.md" :=
               Spec.descriptor "My Site!" "https://example.com" "1" None ]};
        stdout := ["Collecting My Site!..."];
        requests := [Demo.page_url] |}).
Proof.
  intros rt.
  assert (Hmissing :
    ("title" = "position" /\
       dict_get "position"
         [("position", VInt 3); ("url", VStr "https://example.org")] = None) \/
    ("title" = "title" /\
     dict_get "title" [("position", VInt 3); ("url", VStr "https://example.org")]
     = None /\
     exists position priority,
       dict_get "position" [("position", VInt 3); ("url", VStr "https://example.org")]
       = Some position /\
       add_int rt position 1 = Ok priority)).
  { right. split; [reflexivity|]. split; [reflexivity|].
    exists (VInt 3), (VInt 4). split; reflexivity. }
  destruct (missing_field_aborts rt
              [("position", VInt 3); ("url", VStr "https://example.org")] "title"
              eq_refl Hmissing) as (Hkept & Hraise & Hrun).
  split; [|split].
  - exact (Hkept [Demo.entry_plain; Demo.entry_header] [Demo.entry_image]
             [Demo.entry_plain] [Demo.entry_image] eq_refl eq_refl).
  - apply Hraise.
  - apply (Hrun "get_links.py" Demo.page_url [Demo.entry_plain] [Demo.entry_image]
             Demo.empty_world (with_request Demo.page_url Demo.empty_world));
      reflexivity.
Defined.

Example missing_position :
  capture_link Demo.rt LINK_ROOT IMAGE_ROOT IMAGE_WEB_ROOT
    (VDict [("title", VStr "A"); ("url", VStr "u")]) Demo.empty_world
  = (Raise (KeyError "position"), Demo.empty_world).
Proof. reflexivity. Qed.

(** A [position] that cannot be incremented raises before the title is
    read. *)
Example text_position :
  capture_link Demo.rt LINK_ROOT IMAGE_ROOT IMAGE_WEB_ROOT
    (VDict [("position", VStr "3"); ("url", VStr "u")]) Demo.empty_world
  = (Raise (TypeError TStr), Demo.empty_world).
Proof. reflexivity. Qed.

(** ** The command line *)

Example usage_error :
  main Demo.rt ["get_links.py"] Demo.empty_world
  = (Raise (ValueError "usage: python3 get-links.py <linktree-url>"),
     Demo.empty_world).
Proof. reflexivity. Qed.

(** ** Strings at work *)

Example sub_non_alnum_ex :
  Re.sub_non_alnum "  my  site!! ok" = "-my-site-ok".
Proof. reflexivity. Qed.

Example sub_edge_hyphens_ex :
  Re.sub_edge_hyphens "--my--site---" = "my--site".
Proof. reflexivity. Qed.

Example split_ex :
  Str.split "/" "https://cdn.example.com/abc.png"
  = ["https:"; ""; "cdn.example.com"; "abc.png"].
Proof. reflexivity. Qed.

Example of_Z_ex : Str.of_Z 12 = "12" /\ Str.of_Z 0 = "0" /\ Str.of_Z (-3) = "-3".
Proof. repeat split. Qed.

Example chars_ex :
  Str.chars (String "097" (String "195" (String "169" "b")))
  = ["a"; String "195" (String "169" ""); "b"].
Proof. reflexivity. Qed.

(** * Further properties *)

(** ** More on slugs *)

Lemma alnum_not_hyphen (c : ascii) :
  Str.is_alnum c = true -> Str.is_hyphen c = false.
Proof. each_char c. Qed.










Lemma drop_while_empty (p : ascii -> bool) (s : string) :
  Str.drop_while p s = "" <-> Str.all p s = true.
Proof.
  induction s as [|c r IH]; simpl; [done|].
  destruct (p c); simpl; [exact IH | done].
Qed.

Lemma sub_runs_hyphens (b : bool) (s : string) :
  Str.all Str.is_hyphen (Re.sub_runs b s) = true <->
  Str.all (fun c => negb (Str.is_alnum c)) s = true.
Proof.
  revert b. induction s as [|c r IH]; intros b; simpl; [done|].
  destruct (Str.is_alnum c) eqn:E; simpl.
  - rewrite (alnum_not_hyphen c E). done.
  - destruct b; simpl; apply IH.
Qed.

(** X2.  The slug is empty exactly when the lowered title has no
    character of [a-zA-Z0-9]; the descriptor is then named [.md]. *)
Theorem slug_empty_iff (rt : runtime) (title : string) :
  stub_title rt (VStr title) = Ok "" <->
  Str.all (fun c => negb (Str.is_alnum c)) (str_lower rt title) = true.
Proof.
  unfold stub_title, method_lower. simpl.
  unfold Re.sub_edge_hyphens, Re.sub_non_alnum.
  rewrite <- (sub_runs_hyphens false). rewrite <- drop_while_empty.
  split.
  - intros [= H]. apply sub_trailing_empty in H.
    apply drop_while_empty in H. apply drop_while_empty.
    clear -H. induction (Re.sub_runs false (str_lower rt title)) as [|c r IH];
      simpl in *; [done|].
    destruct (Str.is_hyphen c) eqn:E; simpl in *; [by apply IH|].
    by rewrite E in H.
  - intros H. by rewrite H.
Qed.

Example slug_of_punctuation :
  stub_title Demo.rt (VStr "?!? ...") = Ok "" /\
  (capture_link Demo.rt LINK_ROOT IMAGE_ROOT IMAGE_WEB_ROOT
     (VDict [("position", VInt 0); ("title", VStr "?!? ...");
             ("url", VStr "https://example.com")]) Demo.empty_world).2
  = {| files := {[ "../_links/.md" :=
                     Spec.descriptor "?!? ..." "https://example.com" "1" None ]};
       stdout := ["Collecting ?!? ......"]; requests := [] |}.
Proof. split; reflexivity. Qed.

(** ** What a run leaves alone *)

Lemma grown_refl (scope : string -> bool) (w : world) : grown scope 0 w w.
Proof.
  repeat split; auto.
  - exists []. by rewrite app_nil_r.
  - exists []. by rewrite app_nil_r.
Qed.

Lemma grown_trans (scope : string -> bool) (n1 n2 : nat) (w w1 w2 : world) :
  grown scope n1 w w1 -> grown scope n2 w1 w2 -> grown scope (n1 + n2) w w2.
Proof.
  intros (F1 & K1 & [l1 O1] & [u1 [R1 B1]]) (F2 & K2 & [l2 O2] & [u2 [R2 B2]]).
  repeat split.
  - intros path H. by rewrite F2, F1.
  - auto.
  - exists (l1 ++ l2)%list. by rewrite O2, O1, <- app_assoc.
  - exists (u1 ++ u2)%list. split; [by rewrite R2, R1, <- app_assoc|].
    rewrite length_app. lia.
Qed.

Lemma grown_more (scope : string -> bool) (n n' : nat) (w w' : world) :
  (n <= n')%nat -> grown scope n w w' -> grown scope n' w w'.
Proof.
  intros Hn (F & K & O & [u [R B]]). repeat split; auto.
  exists u. split; [done | lia].
Qed.

Lemma confined_bind {A B : Type} (scope : string -> bool) (n1 n2 : nat)
    (m : M A) (f : A -> M B) :
  confined scope n1 m -> (forall a, confined scope n2 (f a)) ->
  confined scope (n1 + n2) (m ≫= f).
Proof.
  intros Hm Hf w. unfold mbind, M_bind. specialize (Hm w).
  destruct (m w) as [[a|e] w1]; simpl in *.
  - eapply grown_trans; [exact Hm | apply Hf].
  - eapply grown_more; [|exact Hm]. lia.
Qed.

Lemma confined_lift {A : Type} (scope : string -> bool) (o : outcome A) :
  confined scope 0 (lift o).
Proof. intros w. apply grown_refl. Qed.

Lemma confined_ret {A : Type} (scope : string -> bool) (a : A) :
  confined scope 0 (mret a : M A).
Proof. intros w. apply grown_refl. Qed.

Lemma confined_print (scope : string -> bool) (line : string) :
  confined scope 0 (print line).
Proof.
  intros w. repeat split; simpl; auto.
  - by exists [line].
  - exists []. by rewrite app_nil_r.
Qed.

Lemma grown_with_file (scope : string -> bool) (path text : string) (w : world) :
  scope path = true -> grown scope 0 w (with_file path text w).
Proof.
  intros Hs. repeat split; simpl.
  - intros other Ho. apply lookup_insert_ne. intros ->. congruence.
  - intros other Ho. destruct (decide (path = other)) as [->|Hne].
    + rewrite lookup_insert_eq. eauto.
    + by rewrite lookup_insert_ne.
  - exists []. by rewrite app_nil_r.
  - exists []. by rewrite app_nil_r.
Qed.

Lemma confined_write (scope : string -> bool) (path text : string) :
  scope path = true -> confined scope 0 (write path text).
Proof. intros Hs w. by apply grown_with_file. Qed.

Lemma confined_open_w (rt : runtime) (scope : string -> bool) (path : string) :
  scope path = true -> confined scope 0 (open_w rt path).
Proof.
  intros Hs w. unfold open_w. destruct (can_open rt path); simpl.
  - by apply grown_with_file.
  - apply grown_refl.
Qed.

Lemma confined_get (rt : runtime) (scope : string -> bool) (url : string) :
  confined scope 1 (get rt url).
Proof.
  intros w. unfold get.
  assert (grown scope 1 w (with_request url w)).
  { repeat split; simpl; auto.
    - exists []. by rewrite app_nil_r.
    - by exists [url]. }
  by destruct (requests_get rt (requests w) url).
Qed.

Lemma confined_create_link_file (rt : runtime) (scope : string -> bool)
    (url priority title img_fn image_link : value) (link_fn : string) :
  scope link_fn = true ->
  confined scope 0
    (create_link_file rt url priority title img_fn image_link link_fn).
Proof.
  intros Hs. unfold create_link_file.
  apply (confined_bind scope 0 0); [by apply confined_open_w|]. intros _.
  do 4 (apply (confined_bind scope 0 0); [by apply confined_write|]; intros _).
  apply (confined_bind scope 0 0).
  { destruct (truthy img_fn); [by apply confined_write | apply confined_ret]. }
  intros _. apply (confined_bind scope 0 0); [by apply confined_write|].
  intros _. by apply confined_write.
Qed.

Lemma confined_fetch_thumbnail (rt : runtime) (scope : string -> bool)
    (image_root image_web_root : string) (img : value) :
  (forall name, scope (image_root +:+ "/" +:+ name) = true) ->
  confined scope 1 (fetch_thumbnail rt image_root image_web_root img).
Proof.
  intros Hs. unfold fetch_thumbnail. destruct (truthy img).
  - apply (confined_bind scope 0 1); [apply confined_print|]. intros _.
    apply (confined_bind scope 0 1); [apply confined_lift|]. intros parts.
    apply (confined_bind scope 1 0); [apply confined_get|]. intros r.
    apply (confined_bind scope 0 0); [apply confined_open_w, Hs|]. intros _.
    apply (confined_bind scope 0 0); [apply confined_write, Hs|]. intros _.
    apply confined_ret.
  - intros w. eapply grown_more; [|apply grown_refl]. lia.
Qed.

Lemma confined_capture_link (rt : runtime) (scope : string -> bool)
    (link_root image_root image_web_root : string) (link : value) :
  (forall name, scope (link_root +:+ "/" +:+ name) = true) ->
  (forall name, scope (image_root +:+ "/" +:+ name) = true) ->
  confined scope 1 (capture_link rt link_root image_root image_web_root link).
Proof.
  intros Hl Hi. unfold capture_link.
  do 3 (apply (confined_bind scope 0 1); [apply confined_lift|]; intros ?).
  apply (confined_bind scope 0 1); [apply confined_print|]. intros _.
  apply (confined_bind scope 0 1); [apply confined_lift|]. intros img.
  apply (confined_bind scope 1 0); [by apply confined_fetch_thumbnail|].
  intros names.
  do 4 (apply (confined_bind scope 0 0); [apply confined_lift|]; intros ?).
  apply confined_create_link_file, Hl.
Qed.

Lemma confined_for_each {A : Type} (scope : string -> bool) (n : nat)
    (body : A -> M unit) (xs : list A) :
  (forall x, confined scope n (body x)) ->
  confined scope (length xs * n) (for_each body xs).
Proof.
  intros Hb. induction xs as [|x xs IH]; simpl.
  - apply confined_ret.
  - apply (confined_bind scope n (length xs * n)); [apply Hb|]. by intros _.
Qed.


Lemma under_root (root name : string) : under root (root +:+ "/" +:+ name) = true.
Proof.
  unfold under. rewrite <- (append_assoc root "/" name).
  generalize (root +:+ "/"). intros p.
  induction p as [|c p IH]; [by destruct name|].
  rewrite append_cons.
  change (String.prefix (String c p) (String c (p +:+ name)))
    with (if ascii_dec c c then String.prefix p (p +:+ name) else false).
  by destruct (ascii_dec c c).
Qed.



(** X4.  Whatever the entry is and however [capture_link] ends, it
    issues at most one request, removes no file, and only adds to what
    was printed. *)
Theorem capture_link_one_request (rt : runtime)
    (link_root image_root image_web_root : string) (link : value) (w : world) :
  let w' := (capture_link rt link_root image_root image_web_root link w).2 in
  (exists urls, requests w' = (requests w ++ urls)%list /\ (length urls <= 1)%nat) /\
  (forall path, is_Some (files w !! path) -> is_Some (files w' !! path)) /\
  (exists lines, stdout w' = (stdout w ++ lines)%list).
Proof.
  destruct (confined_capture_link rt
              (fun p => under link_root p || under image_root p)
              link_root image_root image_web_root link) with (w := w)
    as (_ & K & O & R).
  - intros name. by rewrite under_root.
  - intros name. by rewrite under_root, orb_true_r.
  - done.
Qed.


(** X6.  A run issues one request for the page and at most one for each
    entry kept. *)
Theorem run_request_bound (rt : runtime) (program url : string)
    (links : list value) (w w0 : world) :
  collect_link_definitions rt url w = (Ok links, w0) ->
  exists urls,
    requests (main rt [program; url] w).2 = (requests w ++ url :: urls)%list /\
    (length urls <= length links)%nat.
Proof.
  intros Hc. unfold main. rewrite (bind_step _ _ _ _ _ Hc).
  assert (Hw0 : w0 = with_request url w).
  { rewrite collect_link_definitions_get in Hc.
    destruct (requests_get rt (requests w) url); by injection Hc. }
  destruct (confined_for_each (fun _ => true) 1
              (capture_link rt LINK_ROOT IMAGE_ROOT IMAGE_WEB_ROOT) links) with (w := w0)
    as (_ & _ & _ & urls & R & B).
  { intros link. by apply confined_capture_link. }
  exists urls. split; [|lia].
  rewrite R, Hw0. simpl. by rewrite <- app_assoc.
Qed.

Lemma run_request_bound_witness :
  let rt := Demo.runtime_with 200 None
              (Demo.document (VList [Demo.entry_plain; Demo.entry_image])) in
  exists urls,
    requests (main rt ["get_links.py"; Demo.page_url] Demo.empty_world).2
    = (requests Demo.empty_world ++ Demo.page_url :: urls)%list /\
    (length urls <= length [Demo.entry_plain; Demo.entry_image])%nat.
Proof.
  intros rt.
  apply (run_request_bound rt "get_links.py" Demo.page_url
           [Demo.entry_plain; Demo.entry_image] Demo.empty_world
           (with_request Demo.page_url Demo.empty_world)).
  reflexivity.
Defined.

(** ** How an entry can fail *)

Lemma capture_link_not_object (rt : runtime)
    (link_root image_root image_web_root : string) (link : value) (w : world) :
  is_dict link = false ->
  capture_link rt link_root image_root image_web_root link w
  = (Raise (TypeError (type_of link)), w).
Proof. intros H. by destruct link. Qed.

Lemma stub_title_not_text (rt : runtime) (title : value) :
  type_of title <> TStr ->
  stub_title rt title = Raise (AttributeError (type_of title) "lower").
Proof. intros H. by destruct title. Qed.

(** X7.  [capture_link] returns only for an entry that is an object with
    a [position] that can be incremented, a text [title] and a [url]; and
    when it returns, the descriptor is in place under the slug of the
    title, with the priority and that entry's image reference.  Every
    other entry ends in an exception. *)
Theorem capture_link_returns (rt : runtime)
    (link_root image_root image_web_root : string) (link : value) (w w' : world) :
  capture_link rt link_root image_root image_web_root link w = (Ok tt, w') ->
  exists kvs position priority title url img slug,
    link = VDict kvs /\
    dict_get "position" kvs = Some position /\
    add_int rt position 1 = Ok priority /\
    dict_get "title" kvs = Some (VStr title) /\
    dict_get "url" kvs = Some url /\
    thumbnail_of link = Ok img /\
    stub_title rt (VStr title) = Ok slug /\
    files w' !! (link_root +:+ "/" +:+ slug +:+ ".md")
    = Some (Spec.descriptor title (format rt url) (format rt priority)
              (Spec.image_ref image_web_root img)).
Proof.
  intros H. destruct (is_dict link) eqn:D;
    [|by rewrite capture_link_not_object in H].
  destruct link as [| | | | | |kvs]; try discriminate. clear D.
  destruct (dict_get "position" kvs) as [position|] eqn:Hpos;
    [|unfold capture_link in H;
      by rewrite (subscript_missing _ _ Hpos), bind_lift_raise in H].
  destruct (add_int rt position 1) as [priority|e] eqn:Hadd;
    [|unfold capture_link in H;
      by rewrite (subscript_dict _ _ _ Hpos), bind_lift_ok, Hadd,
           bind_lift_raise in H].
  destruct (dict_get "title" kvs) as [title|] eqn:Htitle;
    [|unfold capture_link in H;
      by rewrite (subscript_dict _ _ _ Hpos), bind_lift_ok, Hadd, bind_lift_ok,
           (subscript_missing _ _ Htitle), bind_lift_raise in H].
  destruct (thumbnail_of (VDict kvs)) as [img|e] eqn:Himg;
    [|unfold capture_link in H;
      by rewrite (subscript_dict _ _ _ Hpos), bind_lift_ok, Hadd, bind_lift_ok,
           (subscript_dict _ _ _ Htitle), bind_lift_ok, bind_print, Himg,
           bind_lift_raise in H].
  rewrite (capture_link_entry _ _ _ _ _ _ _ _ _ _ Hpos Hadd Htitle Himg) in H.
  destruct (fetch_thumbnail rt image_root image_web_root img (announced rt title w))
    as [[names|e] w1] eqn:Hfetch;
    [|by rewrite (bind_raise _ _ _ _ _ Hfetch) in H].
  rewrite (bind_step _ _ _ _ _ Hfetch) in H.
  destruct title as [| | | |text| |];
    try (by rewrite stub_title_not_text, bind_lift_raise in H).
  destruct (stub_title rt (VStr text)) as [slug|e] eqn:Hslug; [|discriminate].
  rewrite bind_lift_ok in H.
  destruct (dict_get "url" kvs) as [url|] eqn:Hurl;
    [|by rewrite (subscript_missing _ _ Hurl), bind_lift_raise in H].
  rewrite (subscript_dict _ _ _ Hurl), bind_lift_ok in H.
  destruct (can_open rt (link_root +:+ "/" +:+ slug +:+ ".md")) eqn:Hopen;
    [|by rewrite create_link_file_closed in H].
  rewrite create_link_file_content in H by done.
  rewrite (fetch_thumbnail_returns _ _ _ _ _ _ _ Hfetch) in H.
  injection H as <-.
  exists kvs, position, priority, text, url, img, slug.
  repeat split; auto. simpl. apply lookup_insert_eq.
Qed.

Lemma capture_link_returns_witness :
  exists kvs position priority title url img slug,
    Demo.entry_image = VDict kvs /\
    dict_get "position" kvs = Some position /\
    add_int Demo.rt position 1 = Ok priority /\
    dict_get "title" kvs = Some (VStr title) /\
    dict_get "url" kvs = Some url /\
    thumbnail_of Demo.entry_image = Ok img /\
    stub_title Demo.rt (VStr title) = Ok slug /\
    files
      {| files :=
           {[ "../_links/shop.md" :=
                Spec.descriptor "Shop" "https://shop.example.com" "2"
                  (Some "/images/abc.png");
              "../images/abc.png" := "PNG" ]};
         stdout := ["Collecting Shop..."; "   ...downloading thumbnail"];
         requests := [Demo.image_url] |} !! (LINK_ROOT +:+ "/" +:+ slug +:+ ".md")
    = Some (Spec.descriptor title (format Demo.rt url) (format Demo.rt priority)
              (Spec.image_ref IMAGE_WEB_ROOT img)).
Proof.
  apply (capture_link_returns Demo.rt LINK_ROOT IMAGE_ROOT IMAGE_WEB_ROOT
           Demo.entry_image Demo.empty_world).
  reflexivity.
Defined.

Example string_entry_ends_run :
  links_of (Demo.document (VList [VStr "curl"])) = Ok [VStr "curl"] /\
  capture_link Demo.rt LINK_ROOT IMAGE_ROOT IMAGE_WEB_ROOT (VStr "curl")
    Demo.empty_world
  = (Raise (TypeError TStr), Demo.empty_world).
Proof. split; reflexivity. Qed.

(** X8.  When the request for the thumbnail fails, the exception leaves
    [capture_link]: the two progress lines are printed and the request is
    issued, and no file is written, neither the image nor the descriptor. *)
Theorem thumbnail_request_failure (rt : runtime)
    (link_root image_root image_web_root : string)
    (kvs : list (string * value)) (position priority title : value)
    (thumbnail : string) (failure : request_failure) (w : world) :
  dict_get "position" kvs = Some position ->
  add_int rt position 1 = Ok priority ->
  dict_get "title" kvs = Some title ->
  thumbnail_of (VDict kvs) = Ok (VStr thumbnail) ->
  thumbnail <> "" ->
  requests_get rt (requests w) thumbnail = inl failure ->
  capture_link rt link_root image_root image_web_root (VDict kvs) w
  = (Raise (RequestException failure),
     {| files := files w;
        stdout := stdout w ++ ["Collecting " +:+ format rt title +:+ "...";
                               "   ...downloading thumbnail"];
        requests := requests w ++ [thumbnail] |}).
Proof.
  intros Hpos Hadd Htitle Himg Hne Hget.
  rewrite (capture_link_entry _ _ _ _ _ _ _ _ _ _ Hpos Hadd Htitle Himg).
  rewrite (bind_raise _ _ _ _ _
             (fetch_thumbnail_failed rt image_root image_web_root thumbnail
                failure (announced rt title w) Hne Hget)).
  unfold with_request, with_line, announced. simpl. by rewrite <- app_assoc.
Qed.

Lemma thumbnail_request_failure_witness :
  capture_link Demo.rt LINK_ROOT IMAGE_ROOT IMAGE_WEB_ROOT
    Scenario.entry_unreachable Demo.empty_world
  = (Raise (RequestException ConnectionFailed),
     {| files := files Demo.empty_world;
        stdout := stdout Demo.empty_world
                  ++ ["Collecting " +:+ format Demo.rt (VStr "Shop") +:+ "...";
                      "   ...downloading thumbnail"];
        requests := requests Demo.empty_world
                    ++ ["https://cdn.example.com/missing.png"] |}).
Proof.
  apply (thumbnail_request_failure Demo.rt LINK_ROOT IMAGE_ROOT IMAGE_WEB_ROOT _
           (VInt 0) (VInt 1) (VStr "Shop") "https://cdn.example.com/missing.png"
           ConnectionFailed Demo.empty_world);
    (reflexivity || discriminate).
Defined.

(** X9.  A thumbnail that is truthy and no text (a number, a list, an
    object) makes [capture_link] raise an [AttributeError] for [split]
    after the two progress lines: no request is issued and no file is
    written. *)
Theorem thumbnail_not_text (rt : runtime)
    (link_root image_root image_web_root : string)
    (kvs : list (string * value)) (position priority title img : value)
    (w : world) :
  dict_get "position" kvs = Some position ->
  add_int rt position 1 = Ok priority ->
  dict_get "title" kvs = Some title ->
  thumbnail_of (VDict kvs) = Ok img ->
  truthy img = true ->
  type_of img <> TStr ->
  capture_link rt link_root image_root image_web_root (VDict kvs) w
  = (Raise (AttributeError (type_of img) "split"),
     {| files := files w;
        stdout := stdout w ++ ["Collecting " +:+ format rt title +:+ "...";
                               "   ...downloading thumbnail"];
        requests := requests w |}).
Proof.
  intros Hpos Hadd Htitle Himg Htruthy Htype.
  rewrite (capture_link_entry _ _ _ _ _ _ _ _ _ _ Hpos Hadd Htitle Himg).
  apply bind_raise. unfold fetch_thumbnail. rewrite Htruthy, bind_print.
  destruct img; try done; unfold method_split; rewrite bind_lift_raise;
    unfold with_line, announced; simpl; by rewrite <- app_assoc.
Qed.

Lemma thumbnail_not_text_witness :
  capture_link Demo.rt LINK_ROOT IMAGE_ROOT IMAGE_WEB_ROOT
    Scenario.entry_numeric_thumbnail Demo.empty_world
  = (Raise (AttributeError (type_of (VInt 7)) "split"),
     {| files := files Demo.empty_world;
        stdout := stdout Demo.empty_world
                  ++ ["Collecting " +:+ format Demo.rt (VStr "Shop") +:+ "...";
                      "   ...downloading thumbnail"];
        requests := requests Demo.empty_world |}).
Proof.
  apply (thumbnail_not_text Demo.rt LINK_ROOT IMAGE_ROOT IMAGE_WEB_ROOT _
           (VInt 0) (VInt 1) (VStr "Shop") (VInt 7) Demo.empty_world);
    (reflexivity || discriminate).
Defined.

(** X10.  When [open] refuses the image file, [capture_link] raises the
    [OSError] after the download: the request has been issued, its
    response is dropped, and no file is written. *)
Theorem image_file_refused (rt : runtime)
    (link_root image_root image_web_root : string)
    (kvs : list (string * value)) (position priority title : value)
    (thumbnail : string) (r : response) (w : world) :
  dict_get "position" kvs = Some position ->
  add_int rt position 1 = Ok priority ->
  dict_get "title" kvs = Some title ->
  thumbnail_of (VDict kvs) = Ok (VStr thumbnail) ->
  thumbnail <> "" ->
  requests_get rt (requests w) thumbnail = inr r ->
  can_open rt (image_root +:+ "/" +:+ Str.last_item (Str.split "/" thumbnail)) = false ->
  capture_link rt link_root image_root image_web_root (VDict kvs) w
  = (Raise (OSError (image_root +:+ "/" +:+ Str.last_item (Str.split "/" thumbnail))),
     {| files := files w;
        stdout := stdout w ++ ["Collecting " +:+ format rt title +:+ "...";
                               "   ...downloading thumbnail"];
        requests := requests w ++ [thumbnail] |}).
Proof.
  intros Hpos Hadd Htitle Himg Hne Hget Hopen.
  rewrite (capture_link_entry _ _ _ _ _ _ _ _ _ _ Hpos Hadd Htitle Himg).
  apply bind_raise. unfold fetch_thumbnail. simpl.
  destruct (String.eqb_spec thumbnail ""); [done|]. simpl.
  rewrite bind_print, bind_lift_ok.
  assert (Hg : get rt thumbnail
                 (with_line "   ...downloading thumbnail" (announced rt title w))
               = (Ok r, with_request thumbnail
                          (with_line "   ...downloading thumbnail"
                             (announced rt title w)))).
  { unfold get. simpl. by rewrite Hget. }
  rewrite (bind_step _ _ _ _ _ Hg).
  apply bind_raise. unfold open_w. rewrite Hopen.
  unfold with_request, with_line, announced. simpl. by rewrite <- app_assoc.
Qed.

Lemma image_file_refused_witness :
  capture_link (Scenario.refusing "../images") LINK_ROOT IMAGE_ROOT IMAGE_WEB_ROOT
    Demo.entry_image Demo.empty_world
  = (Raise (OSError (IMAGE_ROOT +:+ "/"
                     +:+ Str.last_item (Str.split "/" Demo.image_url))),
     {| files := files Demo.empty_world;
        stdout := stdout Demo.empty_world
                  ++ ["Collecting "
                      +:+ format (Scenario.refusing "../images") (VStr "Shop")
                      +:+ "...";
                      "   ...downloading thumbnail"];
        requests := requests Demo.empty_world ++ [Demo.image_url] |}).
Proof.
  apply (image_file_refused (Scenario.refusing "../images") LINK_ROOT IMAGE_ROOT
           IMAGE_WEB_ROOT _ (VInt 1) (VInt 2) (VStr "Shop") Demo.image_url
           {| status_code := 200; content := "PNG" |} Demo.empty_world);
    (reflexivity || discriminate).
Defined.

(** A thumbnail URL that ends in a slash names the image directory
    itself. *)
Example image_path_of_trailing_slash :
  IMAGE_ROOT +:+ "/" +:+ Str.last_item (Str.split "/" "https://cdn.example.com/")
  = "../images/".
Proof. reflexivity. Qed.

(** X11.  The title is lowered only after the thumbnail was stored: for
    a title that is no text, [capture_link] raises the [AttributeError]
    for [lower] with the image file written and no descriptor. *)
Theorem title_not_text (rt : runtime)
    (link_root image_root image_web_root : string)
    (kvs : list (string * value)) (position priority title img : value)
    (names : value * value) (w w1 : world) :
  dict_get "position" kvs = Some position ->
  add_int rt position 1 = Ok priority ->
  dict_get "title" kvs = Some title ->
  type_of title <> TStr ->
  thumbnail_of (VDict kvs) = Ok img ->
  fetch_thumbnail rt image_root image_web_root img (announced rt title w)
  = (Ok names, w1) ->
  capture_link rt link_root image_root image_web_root (VDict kvs) w
  = (Raise (AttributeError (type_of title) "lower"), w1).
Proof.
  intros Hpos Hadd Htitle Htype Himg Hfetch.
  rewrite (capture_link_entry _ _ _ _ _ _ _ _ _ _ Hpos Hadd Htitle Himg).
  rewrite (bind_step _ _ _ _ _ Hfetch).
  by destruct title.
Qed.

Lemma title_not_text_witness :
  capture_link Demo.rt LINK_ROOT IMAGE_ROOT IMAGE_WEB_ROOT
    Scenario.entry_numeric_title Demo.empty_world
  = (Raise (AttributeError (type_of (VInt 2024)) "lower"),
     {| files := {[ "../images/abc.png" := "PNG" ]};
        stdout := ["Collecting 2024..."; "   ...downloading thumbnail"];
        requests := [Demo.image_url] |}).
Proof.
  apply (title_not_text Demo.rt LINK_ROOT IMAGE_ROOT IMAGE_WEB_ROOT _
           (VInt 0) (VInt 1) (VInt 2024) (VStr Demo.image_url)
           (VStr "../images/abc.png", VStr "/images/abc.png") Demo.empty_world);
    (reflexivity || discriminate).
Defined.

(** X12.  When [open] refuses the descriptor, [capture_link] raises the
    [OSError] with what the thumbnail step did left in place: an image
    that was stored stays without its descriptor. *)
Theorem descriptor_refused (rt : runtime)
    (link_root image_root image_web_root : string)
    (kvs : list (string * value)) (position priority url img : value)
    (title slug : string) (names : value * value) (w w1 : world) :
  dict_get "position" kvs = Some position ->
  add_int rt position 1 = Ok priority ->
  dict_get "title" kvs = Some (VStr title) ->
  dict_get "url" kvs = Some url ->
  thumbnail_of (VDict kvs) = Ok img ->
  fetch_thumbnail rt image_root image_web_root img (announced rt (VStr title) w)
  = (Ok names, w1) ->
  stub_title rt (VStr title) = Ok slug ->
  can_open rt (link_root +:+ "/" +:+ slug +:+ ".md") = false ->
  capture_link rt link_root image_root image_web_root (VDict kvs) w
  = (Raise (OSError (link_root +:+ "/" +:+ slug +:+ ".md")), w1).
Proof.
  intros Hpos Hadd Htitle Hurl Himg Hfetch Hslug Hopen.
  rewrite (capture_link_entry _ _ _ _ _ _ _ _ _ _ Hpos Hadd Htitle Himg).
  rewrite (bind_step _ _ _ _ _ Hfetch), Hslug, bind_lift_ok.
  rewrite (subscript_dict _ _ _ Hurl), bind_lift_ok.
  by apply create_link_file_closed.
Qed.

Lemma descriptor_refused_witness :
  capture_link (Scenario.refusing "../_links") LINK_ROOT IMAGE_ROOT IMAGE_WEB_ROOT
    Demo.entry_image Demo.empty_world
  = (Raise (OSError (LINK_ROOT +:+ "/" +:+ "shop" +:+ ".md")),
     {| files := {[ "../images/abc.png" := "PNG" ]};
        stdout := ["Collecting Shop..."; "   ...downloading thumbnail"];
        requests := [Demo.image_url] |}).
Proof.
  apply (descriptor_refused (Scenario.refusing "../_links") LINK_ROOT IMAGE_ROOT
           IMAGE_WEB_ROOT _ (VInt 1) (VInt 2) (VStr "https://shop.example.com")
           (VStr Demo.image_url) "Shop" "shop"
           (VStr "../images/abc.png", VStr "/images/abc.png") Demo.empty_world);
    reflexivity.
Defined.

(** ** How a run can end *)

(** With any number of arguments other than one, the script raises the
    usage error before it does anything. *)
Lemma usage_error_without_effect (rt : runtime) (argv : list string) (w : world) :
  length argv <> 2%nat ->
  main rt argv w
  = (Raise (ValueError "usage: python3 get-links.py <linktree-url>"), w).
Proof. intros H. by destruct argv as [|a [|b [|c argv]]]. Qed.

(** X13.  When [collect_link_definitions] raises, for whatever reason (the
    request, a page without a script block, a block without text, text
    that is no JSON, a document of another shape), the run ends with that
    exception: the page was requested, nothing was printed and no file
    was written. *)
Theorem collection_failure_ends_run (rt : runtime) (program url : string)
    (e : exn) (w w' : world) :
  collect_link_definitions rt url w = (Raise e, w') ->
  main rt [program; url] w = (Raise e, w') /\
  w' = {| files := files w; stdout := stdout w; requests := requests w ++ [url] |}.
Proof.
  intros H. split; [by apply bind_raise|].
  rewrite collect_link_definitions_get in H.
  destruct (requests_get rt (requests w) url); by injection H.
Qed.

Lemma collection_failure_ends_run_witness :
  main (Scenario.serving None None) ["get_links.py"; Demo.page_url] Scenario.notes
  = (Raise IndexError, with_request Demo.page_url Scenario.notes) /\
  with_request Demo.page_url Scenario.notes
  = {| files := files Scenario.notes; stdout := stdout Scenario.notes;
       requests := requests Scenario.notes ++ [Demo.page_url] |}.
Proof.
  apply (collection_failure_ends_run (Scenario.serving None None) "get_links.py"
           Demo.page_url IndexError Scenario.notes
           (with_request Demo.page_url Scenario.notes)).
  reflexivity.
Defined.

Example page_without_script :
  (collect_link_definitions (Scenario.serving None None) Demo.page_url
     Demo.empty_world).1 = Raise IndexError.
Proof. reflexivity. Qed.

Example page_with_broken_json :
  (collect_link_definitions (Scenario.serving (Some "{") None) Demo.page_url
     Demo.empty_world).1 = Raise JSONDecodeError.
Proof. reflexivity. Qed.

(** X14.  The first entry on which [capture_link] raises ends the run
    with that exception, whatever it is: what the entries before it
    wrote stays, and the entries after it are not processed. *)
Theorem first_failure_ends_run (rt : runtime) (program url : string)
    (before after : list value) (link : value) (e : exn) (w w0 w1 w2 : world) :
  collect_link_definitions rt url w = (Ok (before ++ link :: after)%list, w0) ->
  for_each (capture_link rt LINK_ROOT IMAGE_ROOT IMAGE_WEB_ROOT) before w0
  = (Ok tt, w1) ->
  capture_link rt LINK_ROOT IMAGE_ROOT IMAGE_WEB_ROOT link w1 = (Raise e, w2) ->
  main rt [program; url] w = (Raise e, w2).
Proof.
  intros Hc Hb Hl. unfold main. rewrite (bind_step _ _ _ _ _ Hc).
  by eapply for_each_raise.
Qed.

Lemma first_failure_ends_run_witness :
  main (Demo.runtime_with 200 None
          (Demo.document
             (VList [Demo.entry_plain; Scenario.entry_unreachable; Demo.entry_image])))
    ["get_links.py"; Demo.page_url] Demo.empty_world
  = (Raise (RequestException ConnectionFailed),
     {| files :=
          {[ "../_links/my-site.md" :=
               Spec.descriptor "My Site!" "https://example.com" "1" None ]};
        stdout := ["Collecting My Site!..."; "Collecting Shop...";
                   "   ...downloading thumbnail"];
        requests := [Demo.page_url; "https://cdn.example.com/missing.png"] |}).
Proof.
  apply (first_failure_ends_run _ "get_links.py" Demo.page_url
           [Demo.entry_plain] [Demo.entry_image] Scenario.entry_unreachable
           (RequestException ConnectionFailed) Demo.empty_world
           (with_request Demo.page_url Demo.empty_world)
           {| files :=
                {[ "../_links/my-site.md" :=
                     Spec.descriptor "My Site!" "https://example.com" "1" None ]};
              stdout := ["Collecting My Site!..."];
              requests := [Demo.page_url] |});
    reflexivity.
Defined.

(** ** What the filter hands on *)

Lemma comprehension_kept (cond : value -> outcome bool) (xs kept : list value) :
  comprehension cond xs = Ok kept ->
  sublist kept xs /\
  (forall x, In x kept -> cond x = Ok true) /\
  (forall x, In x xs -> cond x = Ok true -> In x kept).
Proof.
  revert kept. induction xs as [|x xs IH]; intros kept H; simpl in H.
  - injection H as <-. repeat split; [constructor | done | done].
  - destruct (cond x) as [keep|e] eqn:Hx; [|discriminate]. simpl in H.
    destruct (comprehension cond xs) as [rest|e]; [|discriminate]. simpl in H.
    injection H as <-. destruct (IH rest eq_refl) as (Hs & Hk & Ha).
    destruct keep; repeat split.
    + by constructor.
    + intros y [<-|Hy]; auto.
    + intros y [<-|Hy] Hc; [by left | right; auto].
    + by constructor.
    + auto.
    + intros y [<-|Hy] Hc; [congruence | auto].
Qed.

(** X15.  Whatever the document holds, every entry that
    [collect_link_definitions] hands on passed the test for [url]; an
    entry that is an object therefore has the key, so that the lookup of
    [url] in [capture_link] cannot fail on it.  The entries come in the
    order of the document. *)
Theorem kept_entries_have_url (data : value) (kept : list value) :
  links_of data = Ok kept ->
  exists all_links entries,
    Spec.walk Spec.links_path data = Spec.Found all_links /\
    py_iter all_links = Ok entries /\
    sublist kept entries /\
    (forall entry, In entry kept ->
       py_in "url" entry = Ok true /\
       forall kvs, entry = VDict kvs -> exists v, subscript entry "url" = Ok v).
Proof.
  rewrite links_of_walk.
  destruct (Spec.walk Spec.links_path data) as [all_links| |]; try discriminate.
  destruct (py_iter all_links) as [entries|e] eqn:Hi; [|discriminate].
  simpl. intros H. apply comprehension_kept in H as (Hs & Hk & _).
  exists all_links, entries. repeat split; auto.
  intros kvs ->. specialize (Hk _ H). simpl in Hk. unfold dict_has in Hk.
  unfold subscript. destruct (dict_get "url" kvs) as [v|]; [eauto|discriminate].
Qed.

Lemma kept_entries_have_url_witness :
  exists all_links entries,
    Spec.walk Spec.links_path
      (Demo.document (VList [Demo.entry_header; VStr "curl"; Demo.entry_plain]))
    = Spec.Found all_links /\
    py_iter all_links = Ok entries /\
    sublist [VStr "curl"; Demo.entry_plain] entries /\
    (forall entry, In entry [VStr "curl"; Demo.entry_plain] ->
       py_in "url" entry = Ok true /\
       forall kvs, entry = VDict kvs -> exists v, subscript entry "url" = Ok v).
Proof.
  apply (kept_entries_have_url
           (Demo.document (VList [Demo.entry_header; VStr "curl"; Demo.entry_plain]))
           [VStr "curl"; Demo.entry_plain]).
  reflexivity.
Defined.

(** ** Writing twice *)


(** X17.  Two entries whose titles have the same slug share one
    descriptor file: after both were captured (here without thumbnails)
    the file holds the second entry only. *)
Theorem same_slug_overwrites (rt : runtime)
    (link_root image_root image_web_root : string)
    (kvs1 kvs2 : list (string * value)) (p1 p2 : Z) (url1 url2 img1 img2 : value)
    (title1 title2 slug : string) (w : world) :
  dict_get "position" kvs1 = Some (VInt p1) ->
  dict_get "title" kvs1 = Some (VStr title1) ->
  dict_get "url" kvs1 = Some url1 ->
  thumbnail_of (VDict kvs1) = Ok img1 -> truthy img1 = false ->
  dict_get "position" kvs2 = Some (VInt p2) ->
  dict_get "title" kvs2 = Some (VStr title2) ->
  dict_get "url" kvs2 = Some url2 ->
  thumbnail_of (VDict kvs2) = Ok img2 -> truthy img2 = false ->
  stub_title rt (VStr title1) = Ok slug ->
  stub_title rt (VStr title2) = Ok slug ->
  can_open rt (link_root +:+ "/" +:+ slug +:+ ".md") = true ->
  for_each (capture_link rt link_root image_root image_web_root)
    [VDict kvs1; VDict kvs2] w
  = (Ok tt,
     {| files :=
          <[link_root +:+ "/" +:+ slug +:+ ".md" :=
              Spec.descriptor title2 (format rt url2) (Str.of_Z (p2 + 1)) None]>
            (files w);
        stdout := stdout w ++ ["Collecting " +:+ title1 +:+ "...";
                               "Collecting " +:+ title2 +:+ "..."];
        requests := requests w |}).
Proof.
  intros Hp1 Ht1 Hu1 Hi1 Hf1 Hp2 Ht2 Hu2 Hi2 Hf2 Hs1 Hs2 Hopen.
  assert (Hnone : forall img, truthy img = false ->
                    Spec.image_ref image_web_root img = None).
  { intros img H. destruct img; try done. unfold truthy in H.
    apply negb_false_iff in H. unfold Spec.image_ref. by rewrite H. }
  simpl.
  rewrite (bind_step _ _ _ _ _
             (capture_link_done rt link_root image_root image_web_root kvs1
                (VInt p1) (VInt (p1 + 1)) url1 img1 title1 slug _ w _
                Hp1 eq_refl Ht1 Hu1 Hi1
                (fetch_thumbnail_none rt image_root image_web_root img1
                   (announced rt (VStr title1) w) Hf1) Hs1 Hopen)).
  rewrite (bind_step _ _ _ _ _
             (capture_link_done rt link_root image_root image_web_root kvs2
                (VInt p2) (VInt (p2 + 1)) url2 img2 title2 slug _ _ _
                Hp2 eq_refl Ht2 Hu2 Hi2
                (fetch_thumbnail_none rt image_root image_web_root img2
                   (announced rt (VStr title2) _) Hf2) Hs2 Hopen)).
  rewrite (Hnone _ Hf2). unfold mret, M_ret, with_file, announced, with_line.
  simpl. by rewrite insert_insert_eq, <- app_assoc.
Qed.

Lemma same_slug_overwrites_witness :
  for_each (capture_link Demo.rt LINK_ROOT IMAGE_ROOT IMAGE_WEB_ROOT)
    [Demo.entry_plain; Scenario.entry_shouting] Demo.empty_world
  = (Ok tt,
     {| files :=
          <[LINK_ROOT +:+ "/" +:+ "my-site" +:+ ".md" :=
              Spec.descriptor "MY SITE" (format Demo.rt (VStr "https://example.net"))
                (Str.of_Z (5 + 1)) None]>
            (files Demo.empty_world);
        stdout := stdout Demo.empty_world
                  ++ ["Collecting " +:+ "My Site!" +:+ "...";
                      "Collecting " +:+ "MY SITE" +:+ "..."];
        requests := requests Demo.empty_world |}).
Proof.
  apply (same_slug_overwrites Demo.rt LINK_ROOT IMAGE_ROOT IMAGE_WEB_ROOT _ _ 0 5
           (VStr "https://example.com") (VStr "https://example.net") VNone VNone
           "My Site!" "MY SITE" "my-site" Demo.empty_world);
    reflexivity.
Defined.
